(** * zzuf launcher (src/myfork.c): a shallow embedding and its properties

    The launcher starts a target program with the fuzzing library active in
    it.  On systems with [fork] the child sets up its descriptors, resource
    limits and environment and calls [execvp]; on Windows the target is
    created suspended and the library is injected by [dll_inject].

    Strings are Rocq strings (a C string holds no NUL), descriptor tables and
    environments are finite maps, the operating system is an explicit state
    with the outcomes of its fallible calls given in advance. *)

From Stdlib Require Import ZArith List String Ascii Lia Bool.
From Stdlib Require Import Decimal DecimalString DecimalZ DecimalPos SpecFloat.
From stdpp Require Import base option gmap strings list.

Local Open Scope string_scope.
Local Open Scope list_scope.
Local Open Scope Z_scope.

#[local] Arguments String.append : simpl nomatch.

(** ** Build configuration *)

(** The preprocessor branches of [run_process] on the fork path. *)
Inductive platform := Apple | OSF | Sun_i386 | OtherUnix.

(** Macros that config.h and the other headers provide.  [LT_OBJDIR] is
    [".libs/"] unless libtool defines it. *)
Record config := {
  LIBDIR : string;
  SONAME : string;
  LT_OBJDIR : string;
  DEBUG_FILENO : Z;
  host : platform
}.

Definition STDOUT_FILENO : Z := 1.
Definition STDERR_FILENO : Z := 2.

Definition EXTRAINFO (pf : platform) : string :=
  match pf with
  | OSF => ":DEFAULT"
  | _ => ""
  end.

Definition PRELOAD (pf : platform) : string :=
  match pf with
  | Apple => "DYLD_INSERT_LIBRARIES"
  | OSF => "_RLD_LIST"
  | Sun_i386 => "LD_PRELOAD_32"
  | OtherUnix => "LD_PRELOAD"
  end.

(** ** C library functions on strings *)

(** [strrchr s c]: the offset of the last [c] in [s], if any. *)
Fixpoint strrchr (s : string) (c : ascii) : option nat :=
  match s with
  | EmptyString => None
  | String a s' =>
      match strrchr s' c with
      | Some i => Some (S i)
      | None => if Ascii.eqb a c then Some 0%nat else None
      end
  end.

(** [strcpy (s + off) src]: the first [off] characters of [s] stay, the copy
    of [src] and its terminator follow. *)
Definition strcpy_at (s : string) (off : nat) (src : string) : string :=
  substring 0 off s +:+ src.

(** [c] occurs in [s]. *)
Fixpoint has_char (c : ascii) (s : string) : bool :=
  match s with
  | EmptyString => false
  | String a s' => Ascii.eqb a c || has_char c s'
  end.

(** ** C integers

    An [int] has 32 bits, two's complement.  [to_int32] is the conversion of
    a value to [int] (or [LONG]), which is also what [int] arithmetic that
    leaves the range gives on the machines at hand; [rlim_t] is an unsigned
    64-bit integer, and a value stored in one is taken modulo 2^64. *)
Definition to_int32 (x : Z) : Z :=
  let y := x mod 2 ^ 32 in
  if y <? 2 ^ 31 then y else y - 2 ^ 32.

Definition int_range (x : Z) : Prop := - 2 ^ 31 <= x < 2 ^ 31.

Definition to_rlim (x : Z) : Z := x mod 2 ^ 64.

(** The decimal text of an integer: an optional minus sign, then the
    digits without leading zeros. *)
Definition decimal_text (v : Z) : string :=
  NilZero.string_of_int (Z.to_int v).

(** printf's [%i]: the argument is read as an [int] and printed in decimal. *)
Definition sprintf_i (v : Z) : string := decimal_text (to_int32 v).

(** The integer a decimal text denotes, for the round trip. *)
Definition decimal_value (s : string) : option Z :=
  option_map Z.of_int (NilZero.int_of_string s).

(** ** printf's [%g] on a double

    A double is a [spec_float] that is valid for binary64.  The conversion is
    the C one with the default precision [P = 6]: the value is rounded to
    six significant decimal digits (to nearest, ties to even, on the exact
    value); with [X] the decimal exponent of the rounded value, style f is
    used when [-4 <= X < 6] and style e otherwise, and trailing zeros of the
    fraction, then a bare decimal point, are removed.  A [spec_float] has
    one NaN, without the sign bit that the C library shows as [-nan]:
    [S754_nan] stands for a NaN whose sign bit is clear, and [is_number]
    keeps the NaNs out of the statements about the texts of the ratios. *)

Definition is_double (x : spec_float) : Prop := valid_binary 53 1024 x = true.

Definition is_number (x : spec_float) : Prop := x <> S754_nan.

(** The largest [k' <= k] with [10^k' <= n/d], for positive [n] and [d],
    searched downwards; [pn/pd] is [10^k]. *)
Fixpoint decimal_exponent (fuel : nat) (k pn pd n d : Z) : Z :=
  match fuel with
  | O => k
  | S fuel' =>
      if pn * d <=? n * pd then k
      else if 1 <? pn then decimal_exponent fuel' (k - 1) (pn / 10) pd n d
      else decimal_exponent fuel' (k - 1) pn (pd * 10) n d
  end.

(** [a/b] rounded to the nearest integer, ties to even. *)
Definition round_half_even (a b : Z) : Z :=
  let q := a / b in
  let r := a mod b in
  if 2 * r <? b then q
  else if b <? 2 * r then q + 1
  else if Z.even q then q else q + 1.

(** Trailing zeros of a digit string removed. *)
Fixpoint strip_zeros (s : string) : string :=
  match s with
  | EmptyString => EmptyString
  | String c s' =>
      match strip_zeros s' with
      | EmptyString => if Ascii.eqb c "0" then EmptyString else String c EmptyString
      | t => String c t
      end
  end.

Definition with_fraction (int_part frac : string) : string :=
  match strip_zeros frac with
  | EmptyString => int_part
  | f => int_part +:+ "." +:+ f
  end.

Fixpoint zeros (n : nat) : string :=
  match n with
  | O => EmptyString
  | S n' => String "0" (zeros n')
  end.

(** The exponent field of style e: a sign and at least two digits. *)
Definition exponent_text (x : Z) : string :=
  (if x <? 0 then "-" else "+") +:+
  (if Z.abs x <? 10 then "0" else "") +:+ decimal_text (Z.abs x).

(** [%g] of the positive value [n/d]. *)
Definition sprintf_g_pos (n d : Z) : string :=
  let x0 := decimal_exponent 700 310 (10 ^ 310) 1 n d in
  let m0 := if x0 <=? 5 then round_half_even (n * 10 ^ (5 - x0)) d
            else round_half_even n (d * 10 ^ (x0 - 5)) in
  let '(m, x) := if m0 =? 1000000 then (100000, x0 + 1) else (m0, x0) in
  let digits := decimal_text m in
  if (x <? -4) || (6 <=? x) then
    with_fraction (substring 0 1 digits) (substring 1 5 digits)
      +:+ "e" +:+ exponent_text x
  else if x <? 0 then
    with_fraction "0" (zeros (Z.to_nat (- x - 1)) +:+ digits)
  else
    with_fraction (substring 0 (Z.to_nat (x + 1)) digits)
                  (substring (Z.to_nat (x + 1)) (Z.to_nat (5 - x)) digits).

Definition sprintf_g (v : spec_float) : string :=
  match v with
  | S754_zero s => if s then "-0" else "0"
  | S754_infinity s => if s then "-inf" else "inf"
  | S754_nan => "nan"
  | S754_finite s m e =>
      (if s then "-" else "") +:+
      (if 0 <=? e then sprintf_g_pos (Z.pos m * 2 ^ e) 1
       else sprintf_g_pos (Z.pos m) (2 ^ (- e)))
  end.

(** The doubles nearest to 0.1, 0.9, 0.1234567 and 0.123457. *)
Definition double_0_1 : spec_float := S754_finite false 7205759403792794 (-56).
Definition double_0_9 : spec_float := S754_finite false 8106479329266893 (-53).
Definition double_0_1234567 : spec_float := S754_finite false 8895992769862258 (-56).
Definition double_0_123457 : spec_float := S754_finite false 8896014387140469 (-56).

(** ** Launch options and the child descriptor *)

(** Modelled from the spec: [enum opmode], [struct opts] and [struct child]
    are declared in headers that are not among the sources.  The spec gives
    the mode as Preload or another mode, the seed as an integer, the ratios
    as floating point, the caps as integers; the code takes a negative cap
    for none (it tests [>= 0]).  The integer fields are C integers: the
    seed is printed with [%i], and the caps are [int]s, so that the
    arithmetic of lines 266, 267 and 277 is [int] arithmetic. *)
Inductive opmode_t := OPMODE_PRELOAD | OPMODE_OTHER.

Definition opmode_eqb (a b : opmode_t) : bool :=
  match a, b with
  | OPMODE_PRELOAD, OPMODE_PRELOAD | OPMODE_OTHER, OPMODE_OTHER => true
  | _, _ => false
  end.

Record opts := {
  opmode : opmode_t;
  oldargv : list string;
  seed : Z;
  minratio : spec_float;
  maxratio : spec_float;
  maxmem : Z;
  maxcpu : Z
}.

Record child := {
  newargv : list string;
  pid : Z;
  process_handle : Z;
  fd : list Z
}.

Definition argv0 (argv : list string) : string := hd "" argv.

(** ** The process and the system calls of the fork path *)

(** What a descriptor names: an end of the launcher's [i]-th pipe, or a file
    the process had before. *)
Inductive file :=
| pipe_read (i : nat)
| pipe_write (i : nat)
| inherited (n : Z).

Inductive syscall :=
| Close (fd : Z)
| Dup2 (oldfd newfd : Z)
| Setrlimit_mem (cur max : Z)
| Setrlimit_cpu (cur max : Z)
| Execvp (path : string) (argv : list string).

(** The state of one process.  [trace] holds its descriptor, limit and exec
    calls, newest first; the environment is a map from names to values. *)
Record process := {
  fds : gmap Z file;
  env : gmap string string;
  rlimit_mem : option (Z * Z);
  rlimit_cpu : option (Z * Z);
  trace : list syscall
}.

(** What the system answers: the descriptors of the successive [pipe] calls
    ([None]: the call fails), the value [fork] returns in the process at
    hand, the files [access (_, R_OK)] accepts, whether [execvp] succeeds. *)
Record os := {
  pipe_results : list (option (Z * Z));
  fork_result : Z;
  access_R_OK : string -> bool;
  execvp_ok : bool
}.

Definition close (d : Z) (p : process) : process :=
  {| fds := delete d (fds p); env := env p; rlimit_mem := rlimit_mem p;
     rlimit_cpu := rlimit_cpu p; trace := Close d :: trace p |}.

(** [dup2] of a descriptor that is not open fails and changes nothing. *)
Definition dup2 (oldfd newfd : Z) (p : process) : process :=
  {| fds := match fds p !! oldfd with
            | Some f => <[newfd := f]> (fds p)
            | None => fds p
            end;
     env := env p; rlimit_mem := rlimit_mem p; rlimit_cpu := rlimit_cpu p;
     trace := Dup2 oldfd newfd :: trace p |}.

(** [setenv (name, value, 1)] and [getenv (name)] on an environment. *)
Definition setenv (name value : string) (e : gmap string string)
  : gmap string string := <[name := value]> e.

Definition getenv (name : string) (e : gmap string string) : option string :=
  e !! name.

Definition with_env (e : gmap string string) (p : process) : process :=
  {| fds := fds p; env := e; rlimit_mem := rlimit_mem p;
     rlimit_cpu := rlimit_cpu p; trace := trace p |}.

Definition setrlimit_mem (cur max : Z) (p : process) : process :=
  {| fds := fds p; env := env p; rlimit_mem := Some (cur, max);
     rlimit_cpu := rlimit_cpu p; trace := Setrlimit_mem cur max :: trace p |}.

Definition setrlimit_cpu (cur max : Z) (p : process) : process :=
  {| fds := fds p; env := env p; rlimit_mem := rlimit_mem p;
     rlimit_cpu := Some (cur, max); trace := Setrlimit_cpu cur max :: trace p |}.

(** A successful [pipe] for the [i]-th channel opens its two ends. *)
Definition open_pipe (i : nat) (rd wr : Z) (p : process) : process :=
  {| fds := <[wr := pipe_write i]> (<[rd := pipe_read i]> (fds p));
     env := env p; rlimit_mem := rlimit_mem p; rlimit_cpu := rlimit_cpu p;
     trace := trace p |}.

(** How a call of the launcher ends in the process at hand: it returns, or
    the process image is replaced, or the process exits. *)
Inductive outcome :=
| Returned (ret : Z) (c : child) (p : process)
| Execed (path : string) (argv : list string) (p : process)
| Exited (status : Z) (p : process).

Definition final_process (r : outcome) : process :=
  match r with
  | Returned _ _ p | Execed _ _ p | Exited _ p => p
  end.

Definition EXIT_FAILURE : Z := 1.

(** ** run_process, fork path (lines 206-343) *)

Section Fork.

Context (cfg : config).

(** [pipes[j][0]], [pipes[j][1]] and the assignment [pipes[j][1] = v]. *)
Definition rd_end (pipes : list (Z * Z)) (j : nat) : Z := fst (pipes !!! j).
Definition wr_end (pipes : list (Z * Z)) (j : nat) : Z := snd (pipes !!! j).
Definition set_wr_end (pipes : list (Z * Z)) (j : nat) (v : Z) : list (Z * Z) :=
  <[j := (rd_end pipes j, v)]> pipes.

(** [static int const fds[] = { DEBUG_FILENO, STDERR_FILENO, STDOUT_FILENO }] *)
Definition fds_table : list Z := [DEBUG_FILENO cfg; STDERR_FILENO; STDOUT_FILENO].

(** The parent's loop, lines 238-239. *)
Definition close_write_ends (pipes : list (Z * Z)) (p : process) : process :=
  fold_left (fun p j => close (wr_end pipes j) p) [2; 1; 0]%nat p.

(** One turn of the child's loop, lines 252-258. *)
Definition remap_channel (j : nat) (st : process * list (Z * Z))
  : process * list (Z * Z) :=
  let '(p, pipes) := st in
  let p := close (rd_end pipes j) p in
  if negb (wr_end pipes j =? fds_table !!! j) then
    let p := dup2 (wr_end pipes j) (fds_table !!! j) p in
    let p := close (wr_end pipes j) p in
    (p, set_wr_end pipes j (fds_table !!! j))
  else (p, pipes).

(** The child's loop, lines 250-259: [for (int j = 3; j--; )]. *)
Definition remap_channels (st : process * list (Z * Z)) : process * list (Z * Z) :=
  fold_left (fun st j => remap_channel j st) [2; 1; 0]%nat st.

(** Lines 262-280, on a system with [setrlimit], [RLIMIT_AS] and
    [RLIMIT_CPU]: the product and the sum are computed in [int] and the
    results stored in the [rlim_t] fields. *)
Definition apply_rlimits (o : opts) (p : process) : process :=
  let p := if 0 <=? maxmem o
           then setrlimit_mem (to_rlim (to_int32 (maxmem o * 1048576)))
                  (to_rlim (to_int32 (maxmem o * 1048576))) p
           else p in
  if 0 <=? maxcpu o
  then setrlimit_cpu (to_rlim (maxcpu o)) (to_rlim (to_int32 (maxcpu o + 5))) p
  else p.

(** Lines 282-295, with [debugfd] the value printed at line 285 or 287. *)
Definition set_environment (o : opts) (debugfd : Z) (e : gmap string string)
  : gmap string string :=
  let e := setenv "ZZUF_DEBUGFD" (sprintf_i debugfd) e in
  let e := setenv "ZZUF_SEED" (sprintf_i (seed o)) e in
  let e := setenv "ZZUF_MINRATIO" (sprintf_g (minratio o)) e in
  setenv "ZZUF_MAXRATIO" (sprintf_g (maxratio o)) e.

(** Lines 299-315: where the library is looked for. *)
Definition resolve_libpath (readable : string -> bool) (target : string) : string :=
  let libpath := target in
  match strrchr libpath "/" with
  | Some tmp =>
      let libpath := strcpy_at libpath (S tmp) (LT_OBJDIR cfg +:+ SONAME cfg) in
      if readable libpath then libpath
      else LIBDIR cfg +:+ "/" +:+ SONAME cfg
  | None => LIBDIR cfg +:+ "/" +:+ SONAME cfg
  end.

(** Lines 320-328: an earlier value of the preload variable is kept. *)
Definition merge_preload (tmp : option string) (libpath : string) : string :=
  match tmp with
  | Some (String c t) => String c t +:+ ":" +:+ libpath
  | _ => libpath
  end.

(** The child after [fork], lines 244-343. *)
Definition run_child (sys : os) (c : child) (o : opts) (pipes : list (Z * Z))
  (p : process) : outcome :=
  let '(p, pipes) := remap_channels (p, pipes) in
  let p := apply_rlimits o p in
  let p := with_env (set_environment o (wr_end pipes 0) (env p)) p in
  let libpath := resolve_libpath (access_R_OK sys) (argv0 (oldargv o)) in
  let libpath := libpath +:+ EXTRAINFO (host cfg) in
  let libpath := merge_preload (getenv (PRELOAD (host cfg)) (env p)) libpath in
  let p := if opmode_eqb (opmode o) OPMODE_PRELOAD
           then with_env (setenv (PRELOAD (host cfg)) libpath (env p)) p
           else p in
  if execvp_ok sys
  then Execed (argv0 (newargv c)) (newargv c)
         {| fds := fds p; env := env p; rlimit_mem := rlimit_mem p;
            rlimit_cpu := rlimit_cpu p;
            trace := Execvp (argv0 (newargv c)) (newargv c) :: trace p |}
  else Exited EXIT_FAILURE p.

Definition run_process (sys : os) (c : child) (o : opts) (pipes : list (Z * Z))
  (p : process) : outcome :=
  let p := match host cfg with
           | Apple => if opmode_eqb (opmode o) OPMODE_PRELOAD
                      then with_env (setenv "DYLD_FORCE_FLAT_NAMESPACE" "1" (env p)) p
                      else p
           | _ => p
           end in
  let pid := fork_result sys in
  if pid <? 0 then Returned (-1) c p
  else if negb (pid =? 0) then Returned pid c (close_write_ends pipes p)
  else run_child sys c o pipes p.

(** The environment the launcher has when it forks: on Apple systems the
    flat-namespace variable is set first, in preload mode. *)
Definition env_at_fork (o : opts) (e : gmap string string) : gmap string string :=
  match host cfg with
  | Apple => if opmode_eqb (opmode o) OPMODE_PRELOAD
             then setenv "DYLD_FORCE_FLAT_NAMESPACE" "1" e else e
  | _ => e
  end.

(** The library path that line 332 hands to [setenv]. *)
Definition preload_value (sys : os) (o : opts) (e : gmap string string) : string :=
  merge_preload (getenv (PRELOAD (host cfg)) e)
    (resolve_libpath (access_R_OK sys) (argv0 (oldargv o))
     +:+ EXTRAINFO (host cfg)).

(** The environment of the process when [run_process] is over in it: for
    the child, the one it hands to the new image. *)
Definition child_env (sys : os) (c : child) (o : opts) (pipes : list (Z * Z))
  (p : process) : gmap string string :=
  env (final_process (run_process sys c o pipes p)).

(** ** myfork, fork path (lines 91-120) *)

(** The loop of lines 95-102 from index [i], [n] pipes to go: the pipes made
    so far stay open when a later [pipe] fails. *)
Fixpoint create_pipes (i n : nat) (results : list (option (Z * Z))) (p : process)
  : option (list (Z * Z)) * process :=
  match n with
  | O => (Some [], p)
  | S n' =>
      match results with
      | Some (rd, wr) :: results' =>
          match create_pipes (S i) n' results' (open_pipe i rd wr p) with
          | (Some pipefds, p') => (Some ((rd, wr) :: pipefds), p')
          | (None, p') => (None, p')
          end
      | _ => (None, p)
      end
  end.

Definition myfork (sys : os) (c : child) (o : opts) (p : process) : outcome :=
  match create_pipes 0 3 (pipe_results sys) p with
  | (None, p) => Returned (-1) c p
  | (Some pipefds, p) =>
      match run_process sys c o pipefds p with
      | Returned pid' c p =>
          if pid' <? 0 then Returned (-1) c p
          else
            let p := fold_left (fun p i => close (wr_end pipefds i) p) [0; 1; 2]%nat p in
            Returned 0 {| newargv := newargv c; pid := pid';
                          process_handle := process_handle c;
                          fd := map (rd_end pipefds) [0; 1; 2]%nat |} p
      | r => r
      end
  end.

End Fork.

(** ** The Windows path: the target process and the Win32 calls *)

(** The two builds of [dll_inject]: [_M_IX86] and [_M_AMD64]. *)
Inductive arch := M_IX86 | M_AMD64.

(** [sizeof (void * )], which is also [sizeof (DWORD_PTR)]. *)
Definition ptr_size (a : arch) : Z :=
  match a with M_IX86 => 4 | M_AMD64 => 8 end.

(** Pointer and [DWORD_PTR] arithmetic is modulo the pointer width. *)
Definition wrap_ptr (a : arch) (x : Z) : Z := x mod 2 ^ (8 * ptr_size a).

(** The thread context, by the names the macros of [dll_inject] give the
    registers: [Rip], [Rsp], [Rcx] or [Eip], [Esp], [Eax]. *)
Record CONTEXT := {
  InstructionPointer : Z;
  StackPointer : Z;
  LoaderRegister : Z
}.

Record MODULEENTRY32 := {
  szModule : string;
  modBaseAddr : Z
}.

Record PROCESS_INFORMATION := {
  hProcess : Z;
  hThread : Z;
  dwProcessId : Z
}.

Inductive api :=
| CreateProcess (application cmdline : string) (hStdOutput hStdError : Z)
| GetThreadContext
| ReadProcessMemory (addr : Z) (data : list Z)
| WriteProcessMemory (addr : Z) (data : list Z)
| FlushInstructionCache (addr len : Z)
| ResumeThread
| SuspendThread
| Sleep (ms : Z)
| CreateToolhelp32Snapshot
| VirtualAllocEx (len : Z)
| SetThreadContext (ctxt : CONTEXT)
| malloc (len : Z)
| TerminateProcess.

(** A call as the log keeps it: the line of myfork.c that makes it, the call
    with its arguments (for a read, the bytes it gave), and whether it
    succeeded. *)
Record event := {
  ev_line : nat;
  ev_api : api;
  ev_ok : bool
}.

(** The launcher's view of the system and of the one target process.
    [w_mem] is the target's memory, a byte per address; [w_ctx] the context
    of its main thread; [w_polls] the contexts the thread shows at the
    successive polls of lines 505-510 while it runs; [w_fails n] tells
    whether the call that would be the [n]-th entry of the log fails;
    [w_alloc] is the address [VirtualAllocEx] gives; [w_modules] what the
    module snapshot lists; [w_pinfo] what [CreateProcess] stores in [pinfo]
    when it succeeds and [w_stack] what the uninitialised [pinfo] of line
    371 holds when it fails; [w_log] the calls made, newest first.  A call that
    fails changes nothing but the log, and the memory changes by the
    launcher's writes alone: what the target's own thread stores while it
    runs is not modelled. *)
Record world := {
  w_mem : Z -> Z;
  w_ctx : CONTEXT;
  w_polls : list CONTEXT;
  w_fails : nat -> bool;
  w_alloc : Z;
  w_modules : list MODULEENTRY32;
  w_pinfo : PROCESS_INFORMATION;
  w_stack : PROCESS_INFORMATION;
  w_osfhandle : Z -> Z;
  w_env : gmap string string;
  w_child_env : option (gmap string string);
  w_alive : bool;
  w_log : list event
}.

Definition set_mem (m : Z -> Z) (w : world) : world :=
  {| w_mem := m; w_ctx := w_ctx w; w_polls := w_polls w; w_fails := w_fails w;
     w_alloc := w_alloc w; w_modules := w_modules w; w_pinfo := w_pinfo w;
     w_stack := w_stack w;
     w_osfhandle := w_osfhandle w; w_env := w_env w;
     w_child_env := w_child_env w; w_alive := w_alive w; w_log := w_log w |}.

Definition set_ctx (c : CONTEXT) (w : world) : world :=
  {| w_mem := w_mem w; w_ctx := c; w_polls := w_polls w; w_fails := w_fails w;
     w_alloc := w_alloc w; w_modules := w_modules w; w_pinfo := w_pinfo w;
     w_stack := w_stack w;
     w_osfhandle := w_osfhandle w; w_env := w_env w;
     w_child_env := w_child_env w; w_alive := w_alive w; w_log := w_log w |}.

Definition set_polls (l : list CONTEXT) (w : world) : world :=
  {| w_mem := w_mem w; w_ctx := w_ctx w; w_polls := l; w_fails := w_fails w;
     w_alloc := w_alloc w; w_modules := w_modules w; w_pinfo := w_pinfo w;
     w_stack := w_stack w;
     w_osfhandle := w_osfhandle w; w_env := w_env w;
     w_child_env := w_child_env w; w_alive := w_alive w; w_log := w_log w |}.

Definition set_env (e : gmap string string) (w : world) : world :=
  {| w_mem := w_mem w; w_ctx := w_ctx w; w_polls := w_polls w;
     w_fails := w_fails w; w_alloc := w_alloc w; w_modules := w_modules w;
     w_pinfo := w_pinfo w; w_stack := w_stack w; w_osfhandle := w_osfhandle w;
     w_env := e;
     w_child_env := w_child_env w; w_alive := w_alive w; w_log := w_log w |}.

Definition set_child_env (e : option (gmap string string)) (w : world) : world :=
  {| w_mem := w_mem w; w_ctx := w_ctx w; w_polls := w_polls w;
     w_fails := w_fails w; w_alloc := w_alloc w; w_modules := w_modules w;
     w_pinfo := w_pinfo w; w_stack := w_stack w; w_osfhandle := w_osfhandle w;
     w_env := w_env w;
     w_child_env := e; w_alive := w_alive w; w_log := w_log w |}.

Definition set_alive (b : bool) (w : world) : world :=
  {| w_mem := w_mem w; w_ctx := w_ctx w; w_polls := w_polls w;
     w_fails := w_fails w; w_alloc := w_alloc w; w_modules := w_modules w;
     w_pinfo := w_pinfo w; w_stack := w_stack w; w_osfhandle := w_osfhandle w;
     w_env := w_env w;
     w_child_env := w_child_env w; w_alive := b; w_log := w_log w |}.

Definition logged (line : nat) (a : api) (ok : bool) (w : world) : world :=
  {| w_mem := w_mem w; w_ctx := w_ctx w; w_polls := w_polls w;
     w_fails := w_fails w; w_alloc := w_alloc w; w_modules := w_modules w;
     w_pinfo := w_pinfo w; w_stack := w_stack w; w_osfhandle := w_osfhandle w;
     w_env := w_env w;
     w_child_env := w_child_env w; w_alive := w_alive w;
     w_log := {| ev_line := line; ev_api := a; ev_ok := ok |} :: w_log w |}.

(** Whether the call about to be made fails. *)
Definition fails (w : world) : bool := w_fails w (length (w_log w)).

(** [n] bytes of memory from [addr]; [data] stored from [addr]. *)
Definition read_bytes (mem : Z -> Z) (addr : Z) (n : nat) : list Z :=
  map (fun i => mem (addr + Z.of_nat i)) (seq 0 n).

Definition write_bytes (mem : Z -> Z) (addr : Z) (data : list Z) : Z -> Z :=
  fun x =>
    if (addr <=? x) && (x <? addr + Z.of_nat (length data))
    then nth (Z.to_nat (x - addr)) data 0
    else mem x.

(** ** A state monad with the jump to [_return]

    A computation of [dll_inject] ends with a value, or jumps to the label
    [_return] with [res] still -1, or never ends (the wait of lines
    505-510). *)

Inductive result (A : Type) :=
| Ok (x : A)
| Goto_return
| Hang.
Arguments Ok {A} x.
Arguments Goto_return {A}.
Arguments Hang {A}.

Definition M (A : Type) : Type := world -> result A * world.

Definition ret {A} (x : A) : M A := fun w => (Ok x, w).

Definition bind {A B} (m : M A) (k : A -> M B) : M B :=
  fun w =>
    match m w with
    | (Ok x, w') => k x w'
    | (Goto_return, w') => (Goto_return, w')
    | (Hang, w') => (Hang, w')
    end.

Declare Scope inject_scope.
Delimit Scope inject_scope with inject.
Notation "x <- m ;; k" := (bind m (fun x => k))
  (at level 100, m at next level, right associativity) : inject_scope.
Notation "m ;; k" := (bind m (fun _ => k))
  (at level 100, right associativity) : inject_scope.

(** A call whose failure sends [dll_inject] to [_return]: [effect] is what
    it does to the target when it succeeds. *)
Definition call {A} (line : nat) (a : api) (x : A) (effect : world -> world)
  : M A :=
  fun w =>
    if fails w then (Goto_return, logged line a false w)
    else (Ok x, logged line a true (effect w)).

Definition GetThreadContext_at (line : nat) : M CONTEXT :=
  fun w => call line GetThreadContext (w_ctx w) id w.

Definition ReadProcessMemory_at (line : nat) (addr : Z) (n : nat) : M (list Z) :=
  fun w =>
    let data := read_bytes (w_mem w) addr n in
    call line (ReadProcessMemory addr data) data id w.

Definition WriteProcessMemory_at (line : nat) (addr : Z) (data : list Z) : M unit :=
  fun w =>
    call line (WriteProcessMemory addr data) tt
      (set_mem (write_bytes (w_mem w) addr data)) w.

Definition FlushInstructionCache_at (line : nat) (addr len : Z) : M unit :=
  call line (FlushInstructionCache addr len) tt id.

Definition ResumeThread_at (line : nat) : M unit := call line ResumeThread tt id.

Definition SuspendThread_at (line : nat) : M unit := call line SuspendThread tt id.

Definition SetThreadContext_at (line : nat) (c : CONTEXT) : M unit :=
  call line (SetThreadContext c) tt (set_ctx c).

Definition malloc_at (line : nat) (len : Z) : M unit := call line (malloc len) tt id.

(** [VirtualAllocEx] gives [NULL] when it fails; a [NULL] result is a jump to
    [_return] as well. *)
Definition VirtualAllocEx_at (line : nat) (len : Z) : M Z :=
  fun w =>
    if w_alloc w =? 0 then (Goto_return, logged line (VirtualAllocEx len) false w)
    else call line (VirtualAllocEx len) (w_alloc w) id w.

Definition Sleep_at (line : nat) (ms : Z) : M unit :=
  fun w => (Ok tt, logged line (Sleep ms) true w).

(** ** get_proc_address (lines 564-627) *)

Definition byte_of_ascii (c : ascii) : Z := Z.of_N (N_of_ascii c).

Definition bytes_of_string (s : string) : list Z :=
  map byte_of_ascii (list_ascii_of_string s).

(** Little-endian integers in memory. *)
Fixpoint le_value (bytes : list Z) : Z :=
  match bytes with
  | [] => 0
  | b :: rest => b mod 256 + 256 * le_value rest
  end.

Fixpoint le_bytes (n : nat) (v : Z) : list Z :=
  match n with
  | O => []
  | S n' => v mod 256 :: le_bytes n' (v / 256)
  end.

Definition read_u16 (mem : Z -> Z) (addr : Z) : Z := le_value (read_bytes mem addr 2).
Definition read_u32 (mem : Z -> Z) (addr : Z) : Z := le_value (read_bytes mem addr 4).

(** Field offsets of the structures of winnt.h that the function reads:
    [e_lfanew] in [IMAGE_DOS_HEADER]; the export entry of the data directory
    in [IMAGE_NT_HEADERS], after the signature, the file header and 96
    (32-bit) or 112 (64-bit) bytes of optional header; the fields of
    [IMAGE_EXPORT_DIRECTORY]. *)
Definition e_lfanew_offset : Z := 60.
Definition export_entry_offset (a : arch) : Z :=
  match a with M_IX86 => 120 | M_AMD64 => 136 end.
Definition NumberOfNames_offset : Z := 24.
Definition AddressOfFunctions_offset : Z := 28.
Definition AddressOfNames_offset : Z := 32.
Definition AddressOfNameOrdinals_offset : Z := 36.

Definition tolower (c : ascii) : ascii :=
  let n := N_of_ascii c in
  if ((65 <=? n) && (n <=? 90))%N then ascii_of_N (n + 32) else c.

(** [stricmp]: zero when the strings are equal up to the case of letters. *)
Fixpoint stricmp (a b : string) : Z :=
  match a, b with
  | EmptyString, EmptyString => 0
  | EmptyString, String y _ => - byte_of_ascii (tolower y)
  | String x _, EmptyString => byte_of_ascii (tolower x)
  | String x a', String y b' =>
      if Ascii.eqb (tolower x) (tolower y) then stricmp a' b'
      else byte_of_ascii (tolower x) - byte_of_ascii (tolower y)
  end.

(** [strcmp] on NUL-terminated byte sequences. *)
Fixpoint strcmp (a b : list Z) : Z :=
  match a, b with
  | x :: a', y :: b' =>
      if x =? y then (if x =? 0 then 0 else strcmp a' b') else x - y
  | _, _ => 0
  end.

Section GetProcAddress.

Context (a : arch) (mem : Z -> Z).

(** The loop of lines 594-621 from index [i], [n] names to go.  [buf] takes
    [strlen (func) + 1] bytes, which [strcmp] never reads past; the source
    gives it 1024 bytes.  The reads are unchecked in the source: they are
    taken to give the target's memory. *)
Fixpoint scan_names (n : nat) (i : Z) (base expdir : Z) (func : string) : option Z :=
  match n with
  | O => None
  | S n' =>
      let nameaddr :=
        read_u32 mem (wrap_ptr a (base + read_u32 mem (expdir + AddressOfNames_offset)
                                  + i * 4)) in
      let buflen := S (String.length func) in
      let buf := read_bytes mem (wrap_ptr a (base + nameaddr)) buflen in
      if negb (strcmp buf (bytes_of_string func ++ [0]) =? 0)
      then scan_names n' (i + 1) base expdir func
      else
        let j :=
          read_u16 mem (wrap_ptr a (base + read_u32 mem (expdir + AddressOfNameOrdinals_offset)
                                    + i * 2)) in
        let funcaddr :=
          read_u32 mem (wrap_ptr a (base + read_u32 mem (expdir + AddressOfFunctions_offset)
                                    + j * 4)) in
        Some (wrap_ptr a (base + funcaddr))
  end.

(** The export directory of the module at [base], lines 585-592: [None] when
    the data directory has no export entry. *)
Definition export_directory (base : Z) : option Z :=
  let e_lfanew := to_int32 (read_u32 mem (base + e_lfanew_offset)) in
  let nt := wrap_ptr a (base + e_lfanew) in
  let exportaddr := read_u32 mem (nt + export_entry_offset a) in
  if exportaddr =? 0 then None else Some (wrap_ptr a (base + exportaddr)).

(** The number of turns of the loop of line 594: [(int) expdir.NumberOfNames]. *)
Definition names_count (expdir : Z) : nat :=
  Z.to_nat (to_int32 (read_u32 mem (expdir + NumberOfNames_offset))).

(** The loop over the module snapshot, lines 572-622. *)
Fixpoint get_proc_address (modules : list MODULEENTRY32) (func : string) : Z :=
  match modules with
  | [] => 0
  | entry :: rest =>
      let base := modBaseAddr entry in
      if negb (stricmp "kernel32.dll" (szModule entry) =? 0)
      then get_proc_address rest func
      else
        match export_directory base with
        | None => get_proc_address rest func
        | Some expdir =>
            match scan_names (names_count expdir) 0 base expdir func with
            | Some ret => ret
            | None => get_proc_address rest func
            end
        end
  end.

End GetProcAddress.

(** ** dll_inject (lines 415-562) *)

Definition ldr (a : arch) : list Z :=
  match a with
  | M_AMD64 =>
      [0x55;
       0x48; 0x89; 0xE5;
       0x48; 0x83; 0xEC; 0x20;
       0x48; 0x83; 0xE4; 0xF0;
       0x48; 0x8D; 0x0D; 0x14; 0x00; 0x00; 0x00;
       0x48; 0xB8; 0x5F; 0x5F; 0x5F; 0x5F; 0x5F; 0x5F; 0x5F; 0x5F;
       0xFF; 0xD0;
       0x48; 0x85; 0xC0;
       0x75; 0x01;
       0xCC;
       0xC9;
       0xC3]
  | M_IX86 =>
      [0x60;
       0xEB; 0x0E;
       0xB8; 0x5F; 0x5F; 0x5F; 0x5F;
       0xFF; 0xD0;
       0x85; 0xC0;
       0x75; 0x01;
       0xCC;
       0x61;
       0xC3;
       0xE8; 0xED; 0xFF; 0xFF; 0xFF]
  end.

Definition LoadLibraryAOffset (a : arch) : nat :=
  match a with M_AMD64 => 0x15%nat | M_IX86 => 0x04%nat end.

(** [static uint8_t const wait[] = "\xeb\xfe"], without its terminator. *)
Definition wait : list Z := [0xeb; 0xfe].

(** [memcpy (dst + off, src, length src)] *)
Definition memcpy_at (dst : list Z) (off : nat) (src : list Z) : list Z :=
  take off dst ++ src ++ drop (off + length src) dst.

(** Lines 531-535: the loader code with the address of [LoadLibraryA] in
    place, then the library name and its terminator. *)
Definition forge_payload (a : arch) (rldlib : Z) (lib : string) : list Z :=
  memcpy_at (ldr a) (LoadLibraryAOffset a) (le_bytes (Z.to_nat (ptr_size a)) rldlib)
  ++ bytes_of_string lib ++ [0].

(** The wait of lines 505-510: [polls] are the contexts still to be seen.
    When none is left and the entry point was not reached, the thread never
    gets there and the loop does not end. *)
Fixpoint wait_for_entry (oep : Z) (ctxt : CONTEXT) (polls : list CONTEXT) : M CONTEXT :=
  if oep =? InstructionPointer ctxt then ret ctxt
  else
    match polls with
    | [] => fun w => (Hang, w)
    | c :: polls' =>
        (_ <- call 507 GetThreadContext tt (fun w => set_ctx c (set_polls polls' w)) ;;
         _ <- Sleep_at 509 10 ;;
         wait_for_entry oep c polls')%inject
    end.

(** Line 516: the snapshot of line 570 lists the modules, or nothing when
    it fails; a [NULL] result is a jump to [_return].  The log keeps the
    snapshot alone: the calls that [get_proc_address] makes besides it
    ([Module32First], [Module32Next], the [ReadProcessMemory] calls of lines
    585-617 and [CloseHandle]) have results that the source does not test;
    they are taken to succeed and are not logged, so that the log holds the
    calls whose outcome [dll_inject] acts on. *)
Definition resolve_LoadLibraryA (a : arch) : M Z :=
  fun w =>
    let ok := negb (fails w) in
    let modules := if ok then w_modules w else [] in
    let rldlib := get_proc_address a (w_mem w) modules "LoadLibraryA" in
    let w := logged 570 CreateToolhelp32Snapshot ok w in
    if rldlib =? 0 then (Goto_return, w) else (Ok rldlib, w).

Definition with_sp (sp : Z) (c : CONTEXT) : CONTEXT :=
  {| InstructionPointer := InstructionPointer c; StackPointer := sp;
     LoaderRegister := LoaderRegister c |}.

Definition with_ip (ip : Z) (c : CONTEXT) : CONTEXT :=
  {| InstructionPointer := ip; StackPointer := StackPointer c;
     LoaderRegister := LoaderRegister c |}.

(** The body of [dll_inject] up to [res = 0]. *)
Definition dll_inject_body (a : arch) (lib : string) : M unit :=
  (let pl_len := Z.of_nat (length (ldr a)) + Z.of_nat (String.length lib) + 1 in
   ctxt <- GetThreadContext_at 490 ;;
   let oep := LoaderRegister ctxt in
   orig_data <- ReadProcessMemory_at 495 oep 2 ;;
   _ <- WriteProcessMemory_at 497 oep wait ;;
   _ <- FlushInstructionCache_at 499 oep 2 ;;
   _ <- ResumeThread_at 501 ;;
   ctxt <- (fun w => wait_for_entry oep ctxt (w_polls w) w) ;;
   _ <- SuspendThread_at 512 ;;
   rldlib <- resolve_LoadLibraryA a ;;
   rpl <- VirtualAllocEx_at 519 pl_len ;;
   let ctxt := with_sp (wrap_ptr a (StackPointer ctxt - ptr_size a)) ctxt in
   _ <- WriteProcessMemory_at 524 (StackPointer ctxt)
          (le_bytes (Z.to_nat (ptr_size a)) oep) ;;
   let ctxt := with_ip rpl ctxt in
   _ <- SetThreadContext_at 527 ctxt ;;
   _ <- malloc_at 531 pl_len ;;
   let pl := forge_payload a rldlib lib in
   _ <- WriteProcessMemory_at 537 rpl pl ;;
   _ <- WriteProcessMemory_at 541 oep orig_data ;;
   _ <- FlushInstructionCache_at 544 rpl pl_len ;;
   _ <- FlushInstructionCache_at 546 oep 2 ;;
   ret tt)%inject.

(** [dll_inject]: 0 after the whole body, -1 after a jump to [_return]. *)
Definition dll_inject (a : arch) (lib : string) : world -> result Z * world :=
  fun w =>
    match dll_inject_body a lib w with
    | (Ok _, w') => (Ok 0, w')
    | (Goto_return, w') => (Ok (-1), w')
    | (Hang, w') => (Hang, w')
    end.

(** ** run_process, Windows path (lines 282-295 and 346-409) *)

(** Lines 358-368: the arguments joined by single spaces. *)
Definition build_cmdline (argv : list string) : string := String.concat " " argv.

Definition TerminateProcess_at (line : nat) (w : world) : world :=
  if fails w then logged line TerminateProcess false w
  else logged line TerminateProcess true (set_alive false w).

Definition with_handles (pinfo : PROCESS_INFORMATION) (c : child) : child :=
  {| newargv := newargv c; pid := dwProcessId pinfo;
     process_handle := hProcess pinfo; fd := fd c |}.

(** Lines 282-295 and 346-390: the environment is set in the launcher
    itself and the target, created suspended, inherits it. *)
Definition create_process (c : child) (o : opts) (pipes : list (Z * Z))
  (w : world) : bool * world :=
  let w := set_env (set_environment o (w_osfhandle w (wr_end pipes 0)) (w_env w)) w in
  let create := CreateProcess (argv0 (newargv c)) (build_cmdline (newargv c))
                  (w_osfhandle w (wr_end pipes 2)) (w_osfhandle w (wr_end pipes 1)) in
  if fails w then (false, logged 372 create false w)
  else (true, logged 372 create true
                (set_child_env (Some (w_env w)) (set_alive true w))).

(** Lines 372-409.  Lines 376-377 copy [pinfo] to the child structure
    whether [CreateProcess] filled it or not; the value returned at line 409
    is the process handle converted to [int]. *)
Definition run_process_win (cfg : config) (a : arch) (c : child) (o : opts)
  (pipes : list (Z * Z)) (w : world) : result Z * child * world :=
  let c' := with_handles (w_pinfo w) c in
  match create_process c o pipes w with
  | (false, w) => (Ok (-1), with_handles (w_stack w) c, w)
  | (true, w) =>
      match dll_inject a (SONAME cfg) w with
      | (Ok ret, w) =>
          if ret <? 0 then (Ok (-1), c', TerminateProcess_at 396 w)
          else if fails w
          then (Ok (-1), c', TerminateProcess_at 405 (logged 402 ResumeThread false w))
          else (Ok (to_int32 (hProcess (w_pinfo w))), c',
                logged 402 ResumeThread true w)
      | (Goto_return, w) => (Goto_return, c', w)
      | (Hang, w) => (Hang, c', w)
      end
  end.

(** The descriptors that the [dup2] calls of a trace overwrite, in the order
    of the trace. *)
Fixpoint dup2_targets (t : list syscall) : list Z :=
  match t with
  | [] => []
  | Dup2 _ newfd :: t' => newfd :: dup2_targets t'
  | _ :: t' => dup2_targets t'
  end.

(** The harness variables of lines 289-295. *)
Definition harness_variables : list string :=
  ["ZZUF_DEBUGFD"; "ZZUF_SEED"; "ZZUF_MINRATIO"; "ZZUF_MAXRATIO"].

(** ** Vocabulary of the statements about the Windows path *)

(** The calls made between two worlds, newest first. *)
Definition new_events (w w' : world) : list event :=
  take (length (w_log w') - length (w_log w)) (w_log w').

(** A computation started in a world that satisfies [I] ends with a value and
    a world that satisfy [Qok], or leaves by [_return], or hangs, in a world
    that satisfies [Qex]. *)
Definition hoare {A} (I : world -> Prop) (m : M A)
  (Qok : A -> world -> Prop) (Qex : world -> Prop) : Prop :=
  forall w, I w ->
    match m w with
    | (Ok x, w') => Qok x w'
    | (Goto_return, w') => Qex w'
    | (Hang, w') => Qex w'
    end.

(** The lines of myfork.c whose calls [dll_inject] logs. *)
Definition inject_lines : list nat :=
  [490; 495; 497; 499; 501; 507; 509; 512; 570; 519; 524; 527; 531; 537; 541;
   544; 546]%nat.

(** [w] is [w0] after calls from the lines [lines] alone, which leave
    what lies outside the target alone. *)
Definition after_calls_from (lines : list nat) (w0 w : world) : Prop :=
  (exists evs, w_log w = evs ++ w_log w0 /\
               Forall (fun e => In (ev_line e) lines) evs) /\
  w_fails w = w_fails w0 /\ w_env w = w_env w0 /\
  w_child_env w = w_child_env w0 /\ w_pinfo w = w_pinfo w0 /\
  w_alive w = w_alive w0.

Section Restore.

Context (w0 : world).

(** The entry point as line 494 takes it and the two bytes there when
    [dll_inject] starts. *)
Definition entry_point : Z := LoaderRegister (w_ctx w0).
Definition saved_bytes : list Z := read_bytes (w_mem w0) entry_point 2.

Definition ev_context : event :=
  {| ev_line := 490; ev_api := GetThreadContext; ev_ok := true |}.
Definition ev_save : event :=
  {| ev_line := 495; ev_api := ReadProcessMemory entry_point saved_bytes;
     ev_ok := true |}.

(** What C2 says of the world [w'] that [dll_inject] leaves: a write of
    line 541 is at the entry point and writes the bytes that the read of
    line 495, the second call of the run and so before the patch of line
    497, saved; once it has succeeded the target holds these bytes there. *)
Definition restore_spec (w' : world) : Prop :=
  exists evs,
    w_log w' = evs ++ w_log w0 /\
    forall addr data ok,
      In {| ev_line := 541; ev_api := WriteProcessMemory addr data; ev_ok := ok |} evs ->
      addr = entry_point /\ data = saved_bytes /\
      (exists later, evs = later ++ [ev_save; ev_context]) /\
      (ok = true -> read_bytes (w_mem w') entry_point 2 = saved_bytes).

(** After line 490, after line 495 and before line 541, after line 541. *)
Definition context_read (w : world) : Prop :=
  w_log w = ev_context :: w_log w0 /\ w_mem w = w_mem w0.

Definition bytes_saved (w : world) : Prop :=
  exists later,
    w_log w = later ++ [ev_save; ev_context] ++ w_log w0 /\
    Forall (fun e => ev_line e <> 541%nat) later.

Definition bytes_restored (w : world) : Prop :=
  exists later,
    w_log w = later ++ [ev_save; ev_context] ++ w_log w0 /\
    Forall (fun e => ev_line e = 541%nat ->
                     e = {| ev_line := 541;
                            ev_api := WriteProcessMemory entry_point saved_bytes;
                            ev_ok := true |}) later /\
    read_bytes (w_mem w) entry_point 2 = saved_bytes.

End Restore.

(** Vocabulary of the statements about [get_proc_address]. *)

Fixpoint lowercase (s : string) : string :=
  match s with
  | EmptyString => EmptyString
  | String c s' => String (tolower c) (lowercase s')
  end.

(** The module is called kernel32.dll, whatever the case of the letters. *)
Definition named_kernel32 (entry : MODULEENTRY32) : bool :=
  String.eqb (lowercase (szModule entry)) "kernel32.dll".

(** A Rocq string that is a C string: no NUL inside. *)
Definition c_string (s : string) : Prop := has_char Ascii.zero s = false.

(** The NUL-terminated string at an address of the target. *)
Definition c_string_at (mem : Z -> Z) (addr : Z) (s : string) : Prop :=
  read_bytes mem addr (S (String.length s)) = bytes_of_string s ++ [0].

(** The module has an export directory whose name table holds [func]: the
    name of some index below [(int) NumberOfNames], read through the table at
    [AddressOfNames], is [func]. *)
Definition exports (a : arch) (mem : Z -> Z) (entry : MODULEENTRY32)
  (func : string) : Prop :=
  exists expdir i,
    export_directory a mem (modBaseAddr entry) = Some expdir /\
    0 <= i < to_int32 (read_u32 mem (expdir + NumberOfNames_offset)) /\
    c_string_at mem
      (wrap_ptr a
         (modBaseAddr entry
          + read_u32 mem
              (wrap_ptr a (modBaseAddr entry
                           + read_u32 mem (expdir + AddressOfNames_offset) + i * 4))))
      func.

(** ** More vocabulary of the statements about the fork path *)

(** Line 301: the size of the buffer [libpath]. *)
Definition libpath_size (cfg : config) (target : string) : nat :=
  (String.length target
   + String.length (LIBDIR cfg +:+ "/" +:+ LT_OBJDIR cfg +:+ SONAME cfg
                    +:+ EXTRAINFO (host cfg))
   + 1)%nat.

(** Line 324: the size of the buffer [bigbuf]. *)
Definition bigbuf_size (tmp libpath : string) : nat :=
  (String.length tmp + String.length libpath + 2)%nat.

(** ** setenv where the system has none (lines 189-204) *)

(** [putenv (str)] sets the variable whose name precedes the first ['='] of
    [str] to what follows it; a string without ['='] removes the variable
    of that name. *)
Fixpoint split_at_equals (str : string) : option (string * string) :=
  match str with
  | EmptyString => None
  | String c str' =>
      if Ascii.eqb c "=" then Some (EmptyString, str')
      else match split_at_equals str' with
           | Some (name, value) => Some (String c name, value)
           | None => None
           end
  end.

Definition putenv (str : string) (e : gmap string string) : gmap string string :=
  match split_at_equals str with
  | Some (name, value) => <[name := value]> e
  | None => delete str e
  end.

(** The replacement [setenv]: [overwrite] is the C integer as a truth
    value. *)
Definition setenv_fallback (name value : string) (overwrite : bool)
  (e : gmap string string) : gmap string string :=
  if negb overwrite && bool_decide (is_Some (getenv name e)) then e
  else
    let str := name +:+ "=" +:+ value in
    putenv str e.

(** The names that [run_process] hands to [setenv] on the fork path. *)
Definition setenv_names : list string :=
  "DYLD_FORCE_FLAT_NAMESPACE" :: harness_variables
  ++ map PRELOAD [Apple; OSF; Sun_i386; OtherUnix].

(** ** More vocabulary of the statements about the Windows path *)





(** The byte ranges [[a1, a1 + n1)] and [[a2, a2 + n2)] do not meet. *)
Definition disjoint (a1 n1 a2 n2 : Z) : Prop := a1 + n1 <= a2 \/ a2 + n2 <= a1.

(** [pl_len] of line 483. *)
Definition pl_len (a : arch) (lib : string) : Z :=
  Z.of_nat (length (ldr a)) + Z.of_nat (String.length lib) + 1.

(** Vocabulary of the statements about the export tables: the address of
    the [k]-th name of the module at [base], and the address that the
    tables give the function of the [k]-th name, through its ordinal. *)
Definition name_address (a : arch) (mem : Z -> Z) (base expdir k : Z) : Z :=
  wrap_ptr a
    (base + read_u32 mem
              (wrap_ptr a (base + read_u32 mem (expdir + AddressOfNames_offset)
                           + k * 4))).

Definition function_address (a : arch) (mem : Z -> Z) (base expdir k : Z) : Z :=
  let j :=
    read_u16 mem (wrap_ptr a (base + read_u32 mem (expdir + AddressOfNameOrdinals_offset)
                              + k * 2)) in
  wrap_ptr a
    (base + read_u32 mem
              (wrap_ptr a (base + read_u32 mem (expdir + AddressOfFunctions_offset)
                           + j * 4))).

(** ** The command line buffer (lines 358-368)

    The buffer that [malloc] gives is a list of bytes; a store outside it has
    no defined result.  [int] arithmetic is modulo 2^32. *)

Definition store (buf : list Z) (i v : Z) : option (list Z) :=
  if (0 <=? i) && (i <? Z.of_nat (length buf))
  then Some (<[Z.to_nat i := v]> buf)
  else None.

Fixpoint store_bytes (buf : list Z) (off : Z) (data : list Z) : option (list Z) :=
  match data with
  | [] => Some buf
  | b :: data' =>
      match store buf off b with
      | Some buf' => store_bytes buf' (off + 1) data'
      | None => None
      end
  end.

(** [strcpy (buf + off, s)] *)
Definition strcpy_to (buf : list Z) (off : Z) (s : string) : option (list Z) :=
  store_bytes buf off (bytes_of_string s ++ [0]).

(** [len += (int) strlen (arg) + 1] *)
Definition add_arg_len (len : Z) (arg : string) : Z :=
  to_int32 (len + (to_int32 (Z.of_nat (String.length arg)) + 1)).

(** The loop of lines 359-360: the size handed to [malloc]. *)
Definition cmdline_len (argv : list string) : Z := fold_left add_arg_len argv 0.

(** The loop of lines 362-367, which has a [len] of its own. *)
Fixpoint fill_args (argv : list string) (len : Z) (cmdline : list Z)
  : option (Z * list Z) :=
  match argv with
  | [] => Some (len, cmdline)
  | arg :: argv' =>
      match strcpy_to cmdline len arg with
      | Some cmdline =>
          let len := add_arg_len len arg in
          match store cmdline (len - 1) 32 with
          | Some cmdline => fill_args argv' len cmdline
          | None => None
          end
      | None => None
      end
  end.

(** Lines 362-368 on the buffer of line 361; the store of line 368 uses the
    [len] of line 358. *)
Definition fill_cmdline (argv : list string) (cmdline : list Z) : option (list Z) :=
  let len := cmdline_len argv in
  match fill_args argv 0 cmdline with
  | Some (_, cmdline) => store cmdline (len - 1) 0
  | None => None
  end.

(** The length of the arguments with one more byte for each. *)
Definition args_size (argv : list string) : Z :=
  fold_right (fun arg n => Z.of_nat (String.length arg) + 1 + n) 0 argv.

(** ** Sample inputs *)

Definition cfg0 : config :=
  {| LIBDIR := "/usr/lib/zzuf"; SONAME := "libzzuf.so"; LT_OBJDIR := ".libs/";
     DEBUG_FILENO := 3; host := OtherUnix |}.

Definition opts0 (mode : opmode_t) : opts :=
  {| opmode := mode; oldargv := ["./dir/target"; "-x"]; seed := 42;
     minratio := double_0_1; maxratio := double_0_9; maxmem := -1; maxcpu := 10 |}.

Definition child0 : child :=
  {| newargv := ["./dir/target"; "-x"]; pid := 0; process_handle := 0; fd := [] |}.

(** A launcher with its three standard descriptors and no preload variable. *)
Definition process0 : process :=
  {| fds := <[2 := inherited 2]> (<[1 := inherited 1]> (<[0 := inherited 0]> ∅));
     env := ∅; rlimit_mem := None; rlimit_cpu := None; trace := [] |}.

Definition pipe_results0 : list (option (Z * Z)) :=
  [Some (3, 4); Some (5, 6); Some (7, 8)].

(** The system as the child sees it ([fork] gave 0), when [fork] fails, and
    when the second [pipe] fails. *)
Definition sys_child : os :=
  {| pipe_results := pipe_results0; fork_result := 0;
     access_R_OK := String.eqb "./dir/.libs/libzzuf.so"; execvp_ok := true |}.

Definition sys_fork_fails : os :=
  {| pipe_results := pipe_results0; fork_result := -1;
     access_R_OK := fun _ => false; execvp_ok := true |}.

Definition sys_second_pipe_fails : os :=
  {| pipe_results := [Some (3, 4); None]; fork_result := 1234;
     access_R_OK := fun _ => false; execvp_ok := true |}.

(** A memory made of byte strings at given addresses, zero elsewhere. *)
Definition memory_of (segments : list (Z * list Z)) : Z -> Z :=
  fold_left (fun mem seg => write_bytes mem (fst seg) (snd seg)) segments (fun _ => 0).

(** A 32-bit target: an image at 0x400000 whose entry point 0x401000 holds
    [55 8B]; kernel32 at 0x10000 with its headers at offset 0x80, its export
    directory at 0x200, one name, LoadLibraryA, with ordinal index 0 and
    function offset 0x1234; another module that comes first in the list. *)
Definition memory0 : Z -> Z :=
  memory_of
    [(0x401000, [0x55; 0x8B]);
     (0x10000 + 60, le_bytes 4 0x80);
     (0x10000 + 0x80 + 120, le_bytes 4 0x200);
     (0x10000 + 0x200 + 24, le_bytes 4 1);
     (0x10000 + 0x200 + 28, le_bytes 4 0x300);
     (0x10000 + 0x200 + 32, le_bytes 4 0x310);
     (0x10000 + 0x200 + 36, le_bytes 4 0x320);
     (0x10000 + 0x310, le_bytes 4 0x330);
     (0x10000 + 0x330, bytes_of_string "LoadLibraryA" ++ [0]);
     (0x10000 + 0x320, le_bytes 2 0);
     (0x10000 + 0x300, le_bytes 4 0x1234)].

Definition modules0 : list MODULEENTRY32 :=
  [{| szModule := "ntdll.dll"; modBaseAddr := 0x20000 |};
   {| szModule := "KERNEL32.DLL"; modBaseAddr := 0x10000 |}].

Definition context0 : CONTEXT :=
  {| InstructionPointer := 0x7700; StackPointer := 0x12FF00;
     LoaderRegister := 0x401000 |}.

(** The target reaches its entry point at the second poll.  [failing] is the
    position in the log of the one call that fails, if any. *)
Definition world0 (failing : option nat) : world :=
  {| w_mem := memory0;
     w_ctx := context0;
     w_polls := [with_ip 0x7710 context0; with_ip 0x401000 context0];
     w_fails := fun n => match failing with
                         | Some k => Nat.eqb n k
                         | None => false
                         end;
     w_alloc := 0x500000;
     w_modules := modules0;
     w_pinfo := {| hProcess := 0x44; hThread := 0x48; dwProcessId := 1000 |};
     w_stack := {| hProcess := 0xCCCC; hThread := 0xCCCC; dwProcessId := 0xCCCC |};
     w_osfhandle := fun d => 0x100 + d;
     w_env := ∅;
     w_child_env := None;
     w_alive := false;
     w_log := [] |}.

(** * Properties *)

(** ** The conversions *)

Example sprintf_g_samples :
  sprintf_g double_0_1 = "0.1" /\ sprintf_g double_0_9 = "0.9" /\
  sprintf_g double_0_1234567 = "0.123457" /\
  sprintf_g (S754_finite false 4503599627370496 (-52)) = "1" /\
  sprintf_g (S754_finite true 5910974510923776 (-47)) = "-42" /\
  sprintf_g (S754_finite false 5902958103587057 (-69)) = "1e-05" /\
  sprintf_g (S754_finite false 8301034833169298 (-64)) = "0.00045" /\
  sprintf_g (S754_finite false 7812500000000000 17) = "1.024e+21" /\
  sprintf_g (S754_finite false 8796093022207999 (-33)) = "1.024e+06" /\
  sprintf_g (S754_finite false 8589925003891199 (-33)) = "999999" /\
  sprintf_g (S754_finite false 8589930297032704 (-33)) = "1e+06".
Proof. vm_compute. repeat split. Qed.

(** The decimal text denotes the integer, and [%i] prints an integer of
    the [int] range as it is. *)
Lemma decimal_value_decimal_text (v : Z) : decimal_value (decimal_text v) = Some v.
Proof.
  unfold decimal_value, decimal_text.
  rewrite NilZero.isi.
  - simpl. f_equal. apply DecimalZ.of_to.
  - destruct v as [|q|q]; simpl; try discriminate.
    intros [= H]. revert H. apply Unsigned.to_uint_nonnil.
  - destruct v as [|q|q]; simpl; try discriminate.
    intros [= H]. revert H. apply Unsigned.to_uint_nonnil.
Qed.

Lemma to_int32_small (x : Z) : - 2 ^ 31 <= x < 2 ^ 31 -> to_int32 x = x.
Proof.
  intros Hx. unfold to_int32. cbv zeta.
  destruct (Z.ltb_spec (x mod 2 ^ 32) (2 ^ 31)) as [H | H].
  - destruct (Z.le_gt_cases 0 x).
    + apply Z.mod_small. lia.
    + exfalso. rewrite <- (Z.mod_add x 1) in H by lia.
      rewrite Z.mod_small in H; lia.
  - destruct (Z.le_gt_cases 0 x).
    + rewrite Z.mod_small in H; lia.
    + rewrite <- (Z.mod_add x 1) by lia. rewrite Z.mod_small; lia.
Qed.


Lemma sprintf_i_in_range (v : Z) : int_range v -> sprintf_i v = decimal_text v.
Proof. intros Hv. unfold sprintf_i. now rewrite to_int32_small. Qed.

(** [%i] on some integers: beyond the [int] range the text is that of the
    value converted to [int]. *)
Example sprintf_i_samples :
  sprintf_i 42 = "42" /\ sprintf_i 0 = "0" /\ sprintf_i (-42) = "-42" /\
  sprintf_i 2147483647 = "2147483647" /\ sprintf_i 2147483648 = "-2147483648" /\
  sprintf_i 4294967295 = "-1".
Proof. vm_compute. repeat split. Qed.

(** ** Strings *)

Lemma append_assoc (s t u : string) : (s +:+ t) +:+ u = s +:+ (t +:+ u).
Proof. induction s as [|ch s IH]; simpl; [reflexivity | now rewrite IH]. Qed.

Lemma has_char_append (ch : ascii) (s t : string) :
  has_char ch (s +:+ t) = has_char ch s || has_char ch t.
Proof.
  induction s as [|x s IH]; simpl; [reflexivity|].
  rewrite IH. now rewrite orb_assoc.
Qed.

Lemma strrchr_None (s : string) (ch : ascii) :
  strrchr s ch = None <-> has_char ch s = false.
Proof.
  induction s as [|x s IH]; simpl; [tauto|].
  destruct (strrchr s ch) as [i|].
  - split; [discriminate|]. intros H. apply orb_false_iff in H as [_ H].
    apply IH in H. discriminate.
  - destruct (Ascii.eqb x ch); simpl; [split; discriminate|].
    split; intros _; [now apply IH | reflexivity].
Qed.

(** [strrchr] cuts the string at its last [ch]. *)
Lemma strrchr_Some (s : string) (ch : ascii) (i : nat) :
  strrchr s ch = Some i ->
  exists pre post,
    s = pre +:+ String ch post /\ has_char ch post = false /\
    substring 0 (S i) s = pre +:+ String ch EmptyString.
Proof.
  revert i. induction s as [|x s IH]; simpl; intros i H; [discriminate|].
  destruct (strrchr s ch) as [k|] eqn:E.
  - injection H as <-. destruct (IH k eq_refl) as (pre & post & -> & Hp & Hs).
    exists (String x pre), post. simpl. repeat split; auto.
    simpl in Hs. now rewrite Hs.
  - destruct (Ascii.eqb_spec x ch) as [->|]; [|discriminate].
    injection H as <-. exists EmptyString, s. simpl. repeat split.
    + now apply strrchr_None.
    + now destruct s.
Qed.

(** ** The fork path *)

Section ForkProperties.

Context (cfg : config).

(** C3.  A target path with a directory separator is [dir/base] with no
    separator in [base]; the library is then [dir/] followed by the
    build-local subdirectory and the library name when that file is
    readable, and the installed library otherwise.  A target path without a
    separator gives the installed library whatever is readable. *)
Theorem resolve_libpath_colocated_or_installed
  (readable : string -> bool) (target : string) :
  let installed := LIBDIR cfg +:+ "/" +:+ SONAME cfg in
  (has_char "/" target = true ->
   exists dir base,
     target = dir +:+ "/" +:+ base /\ has_char "/" base = false /\
     let colocated := dir +:+ "/" +:+ LT_OBJDIR cfg +:+ SONAME cfg in
     resolve_libpath cfg readable target
     = if readable colocated then colocated else installed)
  /\ (has_char "/" target = false ->
      forall readable', resolve_libpath cfg readable' target = installed).
Proof.
  intros installed. split.
  - intros Hsep. unfold resolve_libpath.
    destruct (strrchr target "/") as [i|] eqn:E.
    + destruct (strrchr_Some _ _ _ E) as (pre & post & Ht & Hpost & Hsub).
      exists pre, post. repeat split; auto.
      unfold strcpy_at. rewrite Hsub, append_assoc. reflexivity.
    + apply strrchr_None in E. congruence.
  - intros Hnone readable'. unfold resolve_libpath.
    apply strrchr_None in Hnone. now rewrite Hnone.
Qed.

(** The descriptor loop and the limits leave the environment alone, and
    after the loop [pipes[j][1]] is the well-known number of channel [j]. *)
Lemma remap_channel_env (j : nat) (st : process * list (Z * Z)) :
  env (fst (remap_channel cfg j st)) = env (fst st).
Proof.
  destruct st as [p pipes]. unfold remap_channel.
  destruct (negb _); reflexivity.
Qed.

Lemma remap_channels_env (p : process) (pipes : list (Z * Z)) :
  env (fst (remap_channels cfg (p, pipes))) = env p.
Proof.
  unfold remap_channels. cbn [fold_left]. now rewrite !remap_channel_env.
Qed.

Lemma remap_channels_pipes (p : process) (p0 p1 p2 : Z * Z) :
  snd (remap_channels cfg (p, [p0; p1; p2]))
  = [(fst p0, DEBUG_FILENO cfg); (fst p1, STDERR_FILENO); (fst p2, STDOUT_FILENO)].
Proof.
  destruct p0 as [r0 w0], p1 as [r1 w1], p2 as [r2 w2].
  unfold remap_channels, remap_channel, wr_end, rd_end, set_wr_end, fds_table.
  simpl.
  destruct (Z.eqb_spec w2 STDOUT_FILENO) as [->|]; simpl;
    destruct (Z.eqb_spec w1 STDERR_FILENO) as [->|]; simpl;
    destruct (Z.eqb_spec w0 (DEBUG_FILENO cfg)) as [->|]; reflexivity.
Qed.

Lemma apply_rlimits_env (o : opts) (p : process) : env (apply_rlimits o p) = env p.
Proof. unfold apply_rlimits. destruct (0 <=? maxmem o), (0 <=? maxcpu o); reflexivity. Qed.

(** The environment of the child when it calls [execvp]. *)
Lemma run_process_child_env (sys : os) (c : child) (o : opts) (p0 p1 p2 : Z * Z)
  (p : process) :
  fork_result sys = 0 ->
  env (final_process (run_process cfg sys c o [p0; p1; p2] p))
  = let e := set_environment o (DEBUG_FILENO cfg) (env_at_fork cfg o (env p)) in
    if opmode_eqb (opmode o) OPMODE_PRELOAD
    then setenv (PRELOAD (host cfg)) (preload_value cfg sys o e) e
    else e.
Proof.
  intros Hfork. unfold run_process. rewrite Hfork. simpl.
  set (q := match host cfg with Apple => _ | _ => p end).
  assert (Hq : env q = env_at_fork cfg o (env p)).
  { unfold q, env_at_fork. destruct (host cfg); try reflexivity.
    destruct (opmode_eqb _ _); reflexivity. }
  unfold run_child.
  pose proof (remap_channels_env q [p0; p1; p2]) as He.
  pose proof (remap_channels_pipes q p0 p1 p2) as Hp.
  destruct (remap_channels cfg (q, [p0; p1; p2])) as [q' pipes'].
  simpl in He, Hp. subst pipes'.
  unfold wr_end. simpl.
  unfold preload_value.
  destruct (opmode_eqb (opmode o) OPMODE_PRELOAD), (execvp_ok sys); simpl;
    rewrite ?apply_rlimits_env, He, Hq; reflexivity.
Qed.

Lemma PRELOAD_not_harness (pf : platform) (name : string) :
  In name harness_variables -> PRELOAD pf <> name.
Proof.
  unfold harness_variables. simpl.
  intros [<-|[<-|[<-|[<-|[]]]]]; destruct pf; discriminate.
Qed.

(** The preload variable as the child reads it at line 321 is the one the
    launcher had. *)
Lemma getenv_PRELOAD_before_merge (o : opts) (debugfd : Z) (e : gmap string string) :
  getenv (PRELOAD (host cfg)) (set_environment o debugfd (env_at_fork cfg o e))
  = e !! PRELOAD (host cfg).
Proof.
  unfold getenv, set_environment, setenv.
  rewrite !lookup_insert_ne
    by (apply not_eq_sym, PRELOAD_not_harness; unfold harness_variables; simpl; tauto).
  unfold env_at_fork, setenv.
  destruct (host cfg) eqn:Eh; try reflexivity.
  destruct (opmode_eqb _ _); [|reflexivity].
  now rewrite lookup_insert_ne.
Qed.

Lemma opmode_eqb_eq (m m' : opmode_t) : opmode_eqb m m' = true <-> m = m'.
Proof. destruct m, m'; simpl; split; congruence. Qed.

(** The variables of the child of the fork path, one by one. *)
Lemma child_env_lookup (sys : os) (c : child) (o : opts)
  (p0 p1 p2 : Z * Z) (p : process) :
  fork_result sys = 0 ->
  let e' := child_env cfg sys c o [p0; p1; p2] p in
  e' !! "ZZUF_DEBUGFD" = Some (sprintf_i (DEBUG_FILENO cfg)) /\
  e' !! "ZZUF_SEED" = Some (sprintf_i (seed o)) /\
  e' !! "ZZUF_MINRATIO" = Some (sprintf_g (minratio o)) /\
  e' !! "ZZUF_MAXRATIO" = Some (sprintf_g (maxratio o)) /\
  (opmode o = OPMODE_PRELOAD -> is_Some (e' !! PRELOAD (host cfg))) /\
  (opmode o <> OPMODE_PRELOAD ->
   e' !! PRELOAD (host cfg) = env p !! PRELOAD (host cfg)).
Proof.
  intros Hfork e'. unfold e', child_env.
  rewrite (run_process_child_env sys c o p0 p1 p2 p Hfork). cbn zeta.
  assert (Hne : forall name, In name harness_variables -> PRELOAD (host cfg) <> name)
    by (intros; now apply PRELOAD_not_harness).
  assert (H1 := Hne "ZZUF_DEBUGFD"). assert (H2 := Hne "ZZUF_SEED").
  assert (H3 := Hne "ZZUF_MINRATIO"). assert (H4 := Hne "ZZUF_MAXRATIO").
  unfold harness_variables in H1, H2, H3, H4. simpl in H1, H2, H3, H4.
  pose proof (getenv_PRELOAD_before_merge o (DEBUG_FILENO cfg) (env p)) as Hpre.
  set (e := set_environment o (DEBUG_FILENO cfg) (env_at_fork cfg o (env p))) in *.
  assert (Hd : e !! "ZZUF_DEBUGFD" = Some (sprintf_i (DEBUG_FILENO cfg)))
    by (unfold e, set_environment, setenv; now simplify_map_eq).
  assert (Hs : e !! "ZZUF_SEED" = Some (sprintf_i (seed o)))
    by (unfold e, set_environment, setenv; now simplify_map_eq).
  assert (Hmin : e !! "ZZUF_MINRATIO" = Some (sprintf_g (minratio o)))
    by (unfold e, set_environment, setenv; now simplify_map_eq).
  assert (Hmax : e !! "ZZUF_MAXRATIO" = Some (sprintf_g (maxratio o)))
    by (unfold e, set_environment, setenv; now simplify_map_eq).
  destruct (opmode_eqb (opmode o) OPMODE_PRELOAD) eqn:Em.
  - apply opmode_eqb_eq in Em. unfold setenv.
    rewrite !lookup_insert_ne by tauto. rewrite lookup_insert_eq.
    repeat split; eauto. congruence.
  - assert (opmode o <> OPMODE_PRELOAD)
      by (intros E; apply opmode_eqb_eq in E; congruence).
    repeat split; auto. congruence.
Qed.

(** C1, as amended.  In the child of the fork path the four harness
    variables are set whatever the mode; the preload variable alone depends
    on the mode: it is written in preload mode and left as the launcher had
    it in any other mode. *)
Theorem child_environment_by_mode (sys : os) (c : child) (o : opts)
  (p0 p1 p2 : Z * Z) (p : process) :
  fork_result sys = 0 ->
  let e' := child_env cfg sys c o [p0; p1; p2] p in
  (forall name, In name harness_variables -> is_Some (e' !! name)) /\
  e' !! "ZZUF_DEBUGFD" = Some (sprintf_i (DEBUG_FILENO cfg)) /\
  e' !! "ZZUF_SEED" = Some (sprintf_i (seed o)) /\
  e' !! "ZZUF_MINRATIO" = Some (sprintf_g (minratio o)) /\
  e' !! "ZZUF_MAXRATIO" = Some (sprintf_g (maxratio o)) /\
  (opmode o = OPMODE_PRELOAD -> is_Some (e' !! PRELOAD (host cfg))) /\
  (opmode o <> OPMODE_PRELOAD ->
   e' !! PRELOAD (host cfg) = env p !! PRELOAD (host cfg)).
Proof.
  intros Hfork e'.
  destruct (child_env_lookup sys c o p0 p1 p2 p Hfork) as (Hd & Hs & Hmin & Hmax & Hp).
  fold e' in Hd, Hs, Hmin, Hmax, Hp.
  split; [|tauto].
  unfold harness_variables. simpl.
  intros name [<-|[<-|[<-|[<-|[]]]]]; eauto.
Qed.

(** C4.  In preload mode the preload variable of the child is the value
    [X] the launcher had, a colon and the library path [P] when [X] is not
    empty, and [P] alone when the variable was unset or empty. *)
Theorem preload_variable_merge (sys : os) (c : child) (o : opts)
  (p0 p1 p2 : Z * Z) (p : process) :
  fork_result sys = 0 ->
  opmode o = OPMODE_PRELOAD ->
  let P := resolve_libpath cfg (access_R_OK sys) (argv0 (oldargv o))
           +:+ EXTRAINFO (host cfg) in
  let e' := child_env cfg sys c o [p0; p1; p2] p in
  (forall X, env p !! PRELOAD (host cfg) = Some X -> X <> "" ->
             e' !! PRELOAD (host cfg) = Some (X +:+ ":" +:+ P))
  /\ (env p !! PRELOAD (host cfg) = None \/ env p !! PRELOAD (host cfg) = Some "" ->
      e' !! PRELOAD (host cfg) = Some P).
Proof.
  intros Hfork Hmode P e'. unfold e', child_env.
  rewrite (run_process_child_env sys c o p0 p1 p2 p Hfork). cbn zeta.
  rewrite Hmode. cbn [opmode_eqb].
  assert (Hset : forall v (e : gmap string string),
             setenv (PRELOAD (host cfg)) v e !! PRELOAD (host cfg) = Some v)
    by (intros; apply lookup_insert_eq).
  rewrite Hset. unfold preload_value. rewrite getenv_PRELOAD_before_merge. fold P.
  split.
  - intros X -> HX. destruct X; [congruence | reflexivity].
  - intros [-> | ->]; reflexivity.
Qed.


Lemma close_lookup_ne (d k : Z) (p : process) :
  d <> k -> fds (close d p) !! k = fds p !! k.
Proof. intros. unfold close. simpl. now rewrite lookup_delete_ne. Qed.

Lemma dup2_lookup_ne (oldfd newfd k : Z) (p : process) :
  newfd <> k -> fds (dup2 oldfd newfd p) !! k = fds p !! k.
Proof.
  intros. unfold dup2. simpl.
  destruct (fds p !! oldfd); [now rewrite lookup_insert_ne | reflexivity].
Qed.

Lemma dup2_lookup_eq (oldfd newfd : Z) (f : file) (p : process) :
  fds p !! oldfd = Some f -> fds (dup2 oldfd newfd p) !! newfd = Some f.
Proof. intros H. unfold dup2. simpl. rewrite H. apply lookup_insert_eq. Qed.

(** One turn of the loop leaves a descriptor alone when it is neither an end
    of the channel's pipe nor the channel's well-known number. *)
Lemma remap_channel_lookup_ne (j : nat) (p : process) (pipes : list (Z * Z)) (k : Z) :
  rd_end pipes j <> k -> wr_end pipes j <> k -> fds_table cfg !!! j <> k ->
  fds (fst (remap_channel cfg j (p, pipes))) !! k = fds p !! k.
Proof.
  intros Hr Hw Ht. unfold remap_channel.
  destruct (negb _); cbn [fst].
  - now rewrite close_lookup_ne, dup2_lookup_ne, close_lookup_ne.
  - now rewrite close_lookup_ne.
Qed.

(** One turn of the loop puts the write end on the well-known number. *)
Lemma remap_channel_lookup_target (j : nat) (p : process) (pipes : list (Z * Z))
  (f : file) :
  rd_end pipes j <> wr_end pipes j ->
  fds p !! wr_end pipes j = Some f ->
  fds (fst (remap_channel cfg j (p, pipes))) !! (fds_table cfg !!! j) = Some f.
Proof.
  intros Hr Hw. unfold remap_channel.
  destruct (Z.eqb_spec (wr_end pipes j) (fds_table cfg !!! j)) as [E|E]; cbn [negb fst].
  - rewrite <- E. now rewrite close_lookup_ne.
  - rewrite close_lookup_ne by assumption.
    apply dup2_lookup_eq. now rewrite close_lookup_ne.
Qed.

Lemma cons_prefix {A} (x : A) (t calls u : list A) :
  t = calls ++ u -> x :: t = (x :: calls) ++ u.
Proof. now intros ->. Qed.

(** C7.  The calls of the child's loop, in the order it makes them: for
    the output channel, then the error channel, then the debug channel, the
    read end of the channel's pipe is closed and, unless the write end is
    the well-known number already, the write end of that same pipe is
    duplicated onto the well-known number of the channel and closed.  So
    each [dup2] has the write end of its own channel as source, the
    well-known descriptors are overwritten in the order output, error,
    debug, and no call on another channel follows the remap of the debug
    channel; and when the write end of the debug pipe is none of the other
    pipe ends and neither the output nor the error number, the debug number
    names that write end when the loop is over. *)
Theorem remap_descending_debug_last (p : process) (r0 w0 r1 w1 r2 w2 : Z) :
  let st' := remap_channels cfg (p, [(r0, w0); (r1, w1); (r2, w2)]) in
  (exists calls,
     trace (fst st') = calls ++ trace p /\
     rev calls
     = Close r2
       :: (if w2 =? STDOUT_FILENO then []
           else [Dup2 w2 STDOUT_FILENO; Close w2])
       ++ Close r1
       :: (if w1 =? STDERR_FILENO then []
           else [Dup2 w1 STDERR_FILENO; Close w1])
       ++ Close r0
       :: (if w0 =? DEBUG_FILENO cfg then []
           else [Dup2 w0 (DEBUG_FILENO cfg); Close w0]) /\
     dup2_targets (rev calls)
     = (if w2 =? STDOUT_FILENO then [] else [STDOUT_FILENO])
       ++ (if w1 =? STDERR_FILENO then [] else [STDERR_FILENO])
       ++ (if w0 =? DEBUG_FILENO cfg then [] else [DEBUG_FILENO cfg]))
  /\ (forall f,
        fds p !! w0 = Some f ->
        ~ In w0 [r0; r1; w1; r2; w2; STDOUT_FILENO; STDERR_FILENO] ->
        fds (fst st') !! DEBUG_FILENO cfg = Some f).
Proof.
  intros st'. split.
  - unfold st', remap_channels, remap_channel, wr_end, rd_end, set_wr_end, fds_table.
    simpl.
    destruct (w2 =? STDOUT_FILENO); simpl;
      destruct (w1 =? STDERR_FILENO); simpl;
      destruct (w0 =? DEBUG_FILENO cfg); simpl;
      eexists; (split; [repeat first [exact (eq_refl : trace p = [] ++ trace p)
                                     | eapply cons_prefix]
                       | split; reflexivity]).
  - intros f Hf Hnot. simpl in Hnot.
    unfold st', remap_channels. cbn [fold_left].
    destruct (remap_channel cfg 2 (p, [(r0, w0); (r1, w1); (r2, w2)]))
      as [q2 pipes2] eqn:E2.
    destruct (remap_channel cfg 1 (q2, pipes2)) as [q1 pipes1] eqn:E1.
    assert (Hp2 : pipes2 = [(r0, w0); (r1, w1); (r2, STDOUT_FILENO)]
                  \/ pipes2 = [(r0, w0); (r1, w1); (r2, w2)]).
    { revert E2. unfold remap_channel, wr_end, rd_end, set_wr_end, fds_table. simpl.
      destruct (negb _); intros [= _ <-]; auto. }
    assert (Hq2 : fds q2 !! w0 = Some f).
    { replace q2 with (fst (remap_channel cfg 2 (p, [(r0, w0); (r1, w1); (r2, w2)])))
        by now rewrite E2.
      rewrite remap_channel_lookup_ne; auto;
        unfold rd_end, wr_end, fds_table; simpl; intuition congruence. }
    assert (Hp1 : rd_end pipes1 0 = r0 /\ wr_end pipes1 0 = w0).
    { revert E1. unfold remap_channel, wr_end, rd_end, set_wr_end, fds_table.
      destruct Hp2 as [-> | ->]; simpl; destruct (negb _); intros [= _ <-]; auto. }
    assert (Hq1 : fds q1 !! w0 = Some f).
    { replace q1 with (fst (remap_channel cfg 1 (q2, pipes2))) by now rewrite E1.
      rewrite remap_channel_lookup_ne; auto;
        destruct Hp2 as [-> | ->]; unfold rd_end, wr_end, fds_table; simpl;
        intuition congruence. }
    destruct Hp1 as [Hr Hw].
    change (DEBUG_FILENO cfg) with (fds_table cfg !!! 0%nat).
    apply remap_channel_lookup_target; rewrite ?Hr, ?Hw; auto.
Qed.

End ForkProperties.

Lemma resolve_libpath_witness :
  (exists dir base,
     "./dir/prog" = dir +:+ "/" +:+ base /\ has_char "/" base = false /\
     resolve_libpath cfg0 (String.eqb "./dir/.libs/libzzuf.so") "./dir/prog"
     = if String.eqb "./dir/.libs/libzzuf.so"
            (dir +:+ "/" +:+ LT_OBJDIR cfg0 +:+ SONAME cfg0)
       then dir +:+ "/" +:+ LT_OBJDIR cfg0 +:+ SONAME cfg0
       else "/usr/lib/zzuf/libzzuf.so")
  /\ resolve_libpath cfg0 (fun _ => true) "prog" = "/usr/lib/zzuf/libzzuf.so".
Proof.
  split.
  - apply (proj1 (resolve_libpath_colocated_or_installed cfg0
                    (String.eqb "./dir/.libs/libzzuf.so") "./dir/prog")).
    reflexivity.
  - apply (proj2 (resolve_libpath_colocated_or_installed cfg0
                    (fun _ => false) "prog")).
    reflexivity.
Defined.

(** C1, the claim as written fails: in another mode than preload the child
    of the fork path still gets the harness variables; here the seed. *)
Lemma harness_variables_set_in_other_mode :
  ~ (forall (sys : os) (c : child) (o : opts) (p0 p1 p2 : Z * Z) (p : process),
       fork_result sys = 0 ->
       opmode o <> OPMODE_PRELOAD ->
       forall name,
         In name (PRELOAD (host cfg0) :: harness_variables) ->
         child_env cfg0 sys c o [p0; p1; p2] p !! name = env p !! name).
Proof.
  intros H.
  specialize (H sys_child child0 (opts0 OPMODE_OTHER) (3, 4) (5, 6) (7, 8) process0
                eq_refl ltac:(discriminate) "ZZUF_SEED" ltac:(simpl; tauto)).
  vm_compute in H. discriminate.
Qed.

Lemma child_environment_by_mode_witness :
  child_env cfg0 sys_child child0 (opts0 OPMODE_OTHER) [(3, 4); (5, 6); (7, 8)] process0
    !! "ZZUF_SEED" = Some "42"
  /\ child_env cfg0 sys_child child0 (opts0 OPMODE_OTHER) [(3, 4); (5, 6); (7, 8)] process0
    !! "LD_PRELOAD" = None.
Proof.
  pose proof (child_environment_by_mode cfg0 sys_child child0 (opts0 OPMODE_OTHER)
                (3, 4) (5, 6) (7, 8) process0 eq_refl) as (_ & _ & Hseed & _ & _ & _ & Hpre).
  split.
  - exact Hseed.
  - apply Hpre. discriminate.
Defined.

Lemma preload_variable_merge_witness :
  child_env cfg0 sys_child child0 (opts0 OPMODE_PRELOAD) [(3, 4); (5, 6); (7, 8)]
    (with_env (<["LD_PRELOAD" := "X"]> ∅) process0)
    !! "LD_PRELOAD" = Some "X:./dir/.libs/libzzuf.so"
  /\ child_env cfg0 sys_child child0 (opts0 OPMODE_PRELOAD) [(3, 4); (5, 6); (7, 8)] process0
    !! "LD_PRELOAD" = Some "./dir/.libs/libzzuf.so".
Proof.
  split.
  - apply (proj1 (preload_variable_merge cfg0 sys_child child0 (opts0 OPMODE_PRELOAD)
                    (3, 4) (5, 6) (7, 8) (with_env (<["LD_PRELOAD" := "X"]> ∅) process0)
                    eq_refl eq_refl) "X").
    + reflexivity.
    + discriminate.
  - apply (proj2 (preload_variable_merge cfg0 sys_child child0 (opts0 OPMODE_PRELOAD)
                    (3, 4) (5, 6) (7, 8) process0 eq_refl eq_refl)).
    left. reflexivity.
Defined.



(** The launcher's pipes in place, as [myfork] hands them to [run_process]. *)
Lemma remap_descending_debug_last_witness :
  let p := open_pipe 2 7 8 (open_pipe 1 5 6 (open_pipe 0 3 4 process0)) in
  let st' := remap_channels cfg0 (p, [(3, 4); (5, 6); (7, 8)]) in
  (exists calls,
     trace (fst st') = calls ++ trace p /\
     rev calls = [Close 7; Dup2 8 1; Close 8; Close 5; Dup2 6 2; Close 6;
                  Close 3; Dup2 4 3; Close 4])
  /\ fds (fst st') !! DEBUG_FILENO cfg0 = Some (pipe_write 0).
Proof.
  intros p st'.
  destruct (remap_descending_debug_last cfg0 p 3 4 5 6 7 8)
    as [(calls & Htrace & Hcalls & _) Hdebug].
  split.
  - exists calls. split; [exact Htrace | exact Hcalls].
  - apply Hdebug.
    + reflexivity.
    + simpl. unfold STDOUT_FILENO, STDERR_FILENO. lia.
Defined.

(** C9, the code at two failing launches.  When [fork] fails after the three
    pipes were made, [myfork] returns -1 and the six pipe descriptors are
    still open in the launcher (line 107: "FIXME: close pipes"); when the
    second [pipe] fails, it returns -1 and the two ends of the first pipe
    are still open. *)
Theorem myfork_failure_leaves_pipes_open :
  (exists p',
     myfork cfg0 sys_fork_fails child0 (opts0 OPMODE_PRELOAD) process0
     = Returned (-1) child0 p'
     /\ map (fun d => fds p' !! d) [3; 4; 5; 6; 7; 8]
        = [Some (pipe_read 0); Some (pipe_write 0); Some (pipe_read 1);
           Some (pipe_write 1); Some (pipe_read 2); Some (pipe_write 2)]
     /\ map (fun d => fds process0 !! d) [3; 4; 5; 6; 7; 8]
        = [None; None; None; None; None; None])
  /\ (exists p',
        myfork cfg0 sys_second_pipe_fails child0 (opts0 OPMODE_PRELOAD) process0
        = Returned (-1) child0 p'
        /\ map (fun d => fds p' !! d) [3; 4] = [Some (pipe_read 0); Some (pipe_write 0)]).
Proof.
  split; eexists; (split; [reflexivity|]); vm_compute; repeat split.
Qed.

(** ** The Windows path *)

Lemma new_events_app (w w' : world) (evs : list event) :
  w_log w' = evs ++ w_log w -> new_events w w' = evs.
Proof.
  intros H. unfold new_events. rewrite H, length_app.
  replace (length evs + length (w_log w) - length (w_log w))%nat
    with (length evs) by lia.
  apply take_app_length.
Qed.

Lemma hoare_bind {A B} (I : world -> Prop) (m : M A) (k : A -> M B)
  (Q1 : A -> world -> Prop) (Q2 : B -> world -> Prop) (Qex : world -> Prop) :
  hoare I m Q1 Qex ->
  (forall x, hoare (Q1 x) (k x) Q2 Qex) ->
  hoare I (bind m k) Q2 Qex.
Proof.
  intros Hm Hk w Hw. unfold bind. specialize (Hm w Hw).
  destruct (m w) as [[x| |] w']; auto. exact (Hk x w' Hm).
Qed.

Lemma hoare_ret {A} (I : world -> Prop) (x : A) (Q : A -> world -> Prop)
  (Qex : world -> Prop) :
  (forall w, I w -> Q x w) -> hoare I (ret x) Q Qex.
Proof. intros H w Hw. simpl. auto. Qed.

Lemma hoare_pure {A} (P : Prop) (I : world -> Prop) (m : M A)
  (Q : A -> world -> Prop) (Qex : world -> Prop) :
  (P -> hoare I m Q Qex) -> hoare (fun w => P /\ I w) m Q Qex.
Proof. intros H w [HP Hw]. exact (H HP w Hw). Qed.

Section RestoreProofs.

Context (w0 : world).

Lemma bytes_saved_spec (w : world) : bytes_saved w0 w -> restore_spec w0 w.
Proof.
  intros (later & Hlog & Hno).
  exists (later ++ [ev_save w0; ev_context]). split.
  - rewrite Hlog. now rewrite <- app_assoc.
  - intros addr data ok Hin. exfalso.
    apply in_app_or in Hin as [Hin | [Hin | [Hin | []]]].
    + rewrite Forall_forall in Hno. apply (Hno _ (proj2 (list_elem_of_In _ _) Hin)).
      reflexivity.
    + discriminate.
    + discriminate.
Qed.

Lemma bytes_saved_step (w w1 : world) (line : nat) (a : api) (ok : bool) :
  bytes_saved w0 w ->
  line <> 541%nat ->
  w_log w1 = {| ev_line := line; ev_api := a; ev_ok := ok |} :: w_log w ->
  bytes_saved w0 w1.
Proof.
  intros (later & Hlog & Hno) Hline Hw1.
  exists ({| ev_line := line; ev_api := a; ev_ok := ok |} :: later). split.
  - rewrite Hw1, Hlog. reflexivity.
  - constructor; assumption.
Qed.

Lemma bytes_restored_spec (w : world) : bytes_restored w0 w -> restore_spec w0 w.
Proof.
  intros (later & Hlog & Hall & Hmem).
  exists (later ++ [ev_save w0; ev_context]). split.
  - rewrite Hlog. now rewrite <- app_assoc.
  - intros addr data ok Hin.
    apply in_app_or in Hin as [Hin | [Hin | [Hin | []]]]; try discriminate.
    rewrite Forall_forall in Hall.
    specialize (Hall _ (proj2 (list_elem_of_In _ _) Hin) eq_refl).
    injection Hall as -> -> ->. repeat split; eauto.
Qed.

Lemma bytes_restored_step (w w1 : world) (line : nat) (a : api) (ok : bool) :
  bytes_restored w0 w ->
  line <> 541%nat ->
  w_log w1 = {| ev_line := line; ev_api := a; ev_ok := ok |} :: w_log w ->
  w_mem w1 = w_mem w ->
  bytes_restored w0 w1.
Proof.
  intros (later & Hlog & Hall & Hmem) Hline Hw1 Hm.
  exists ({| ev_line := line; ev_api := a; ev_ok := ok |} :: later). repeat split.
  - rewrite Hw1, Hlog. reflexivity.
  - constructor; [|assumption]. simpl. intros. contradiction.
  - now rewrite Hm.
Qed.

(** Reading back two bytes just written. *)
Lemma read_bytes_written (mem : Z -> Z) (addr x y : Z) :
  read_bytes (write_bytes mem addr [x; y]) addr 2 = [x; y].
Proof.
  assert (H : forall i, 0 <= i < 2 ->
            write_bytes mem addr [x; y] (addr + i) = nth (Z.to_nat i) [x; y] 0).
  { intros i Hi. unfold write_bytes.
    change (Z.of_nat (length [x; y])) with 2.
    destruct (Z.leb_spec addr (addr + i)); [|lia].
    destruct (Z.ltb_spec (addr + i) (addr + 2)); [|lia].
    cbn [andb]. f_equal. f_equal. lia. }
  unfold read_bytes. cbn [seq map].
  change (Z.of_nat 0) with 0. change (Z.of_nat 1) with 1.
  rewrite !H by lia. reflexivity.
Qed.

Ltac unfold_calls :=
  unfold GetThreadContext_at, ReadProcessMemory_at, WriteProcessMemory_at,
    FlushInstructionCache_at, ResumeThread_at, SuspendThread_at,
    SetThreadContext_at, malloc_at, Sleep_at, call; cbv zeta.

(** A call between lines 495 and 541, not at line 541. *)
Ltac saved_step :=
  let w := fresh "w" in
  let Hw := fresh "Hw" in
  intros w Hw; unfold_calls;
  try destruct (fails w);
  try apply bytes_saved_spec;
  (eapply bytes_saved_step; [exact Hw | | reflexivity]; lia).

(** A call after line 541 that leaves the memory alone. *)
Ltac restored_step :=
  let w := fresh "w" in
  let Hw := fresh "Hw" in
  intros w Hw; unfold_calls;
  try destruct (fails w);
  try apply bytes_restored_spec;
  (eapply bytes_restored_step; [exact Hw | | reflexivity | reflexivity]; lia).

Lemma wait_for_entry_saved (oep : Z) (polls : list CONTEXT) (ctxt : CONTEXT) :
  hoare (bytes_saved w0) (wait_for_entry oep ctxt polls)
    (fun _ => bytes_saved w0) (restore_spec w0).
Proof.
  revert ctxt. induction polls as [|c polls IH]; intros ctxt; simpl.
  - destruct (oep =? InstructionPointer ctxt).
    + apply hoare_ret. auto.
    + intros w Hw. now apply bytes_saved_spec.
  - destruct (oep =? InstructionPointer ctxt).
    + apply hoare_ret. auto.
    + eapply hoare_bind with (Q1 := fun _ => bytes_saved w0); [saved_step | intros _].
      eapply hoare_bind with (Q1 := fun _ => bytes_saved w0); [saved_step | intros _].
      apply IH.
Qed.

Lemma dll_inject_body_restore (a : arch) (lib : string) :
  hoare (eq w0) (dll_inject_body a lib) (fun _ => restore_spec w0) (restore_spec w0).
Proof.
  unfold dll_inject_body. cbv zeta.
  eapply hoare_bind
    with (Q1 := fun ctxt w => ctxt = w_ctx w0 /\ context_read w0 w).
  { intros w <-. unfold_calls. destruct (fails w0).
    - eexists [_]. split; [reflexivity|].
      intros addr data ok [Hin | []]. discriminate.
    - repeat split. }
  intros ctxt. apply hoare_pure. intros ->.
  eapply hoare_bind
    with (Q1 := fun orig w => orig = saved_bytes w0 /\ bytes_saved w0 w).
  { intros w [Hlog Hmem]. unfold_calls. destruct (fails w).
    - eexists [_; _]. split; [simpl; rewrite Hlog; reflexivity|].
      intros addr data ok [Hin | [Hin | []]]; discriminate.
    - split; [unfold saved_bytes, entry_point; now rewrite Hmem|].
      exists []. split; [|constructor].
      simpl. rewrite Hlog, Hmem. reflexivity. }
  intros orig. apply hoare_pure. intros ->.
  eapply hoare_bind with (Q1 := fun _ => bytes_saved w0); [saved_step | intros _].
  eapply hoare_bind with (Q1 := fun _ => bytes_saved w0); [saved_step | intros _].
  eapply hoare_bind with (Q1 := fun _ => bytes_saved w0); [saved_step | intros _].
  eapply hoare_bind with (Q1 := fun _ => bytes_saved w0).
  { intros w Hw. now apply wait_for_entry_saved. }
  intros ctxt.
  eapply hoare_bind with (Q1 := fun _ => bytes_saved w0); [saved_step | intros _].
  eapply hoare_bind with (Q1 := fun _ => bytes_saved w0).
  { intros w Hw. unfold resolve_LoadLibraryA. cbv zeta.
    destruct (_ =? 0); [apply bytes_saved_spec|];
      (eapply bytes_saved_step; [exact Hw | | reflexivity]; lia). }
  intros rldlib.
  eapply hoare_bind with (Q1 := fun _ => bytes_saved w0).
  { intros w Hw. unfold VirtualAllocEx_at.
    destruct (w_alloc w =? 0).
    - apply bytes_saved_spec.
      eapply bytes_saved_step; [exact Hw | | reflexivity]; lia.
    - revert w Hw. saved_step. }
  intros rpl.
  eapply hoare_bind with (Q1 := fun _ => bytes_saved w0); [saved_step | intros _].
  eapply hoare_bind with (Q1 := fun _ => bytes_saved w0); [saved_step | intros _].
  eapply hoare_bind with (Q1 := fun _ => bytes_saved w0); [saved_step | intros _].
  eapply hoare_bind with (Q1 := fun _ => bytes_saved w0); [saved_step | intros _].
  eapply hoare_bind with (Q1 := fun _ => bytes_restored w0).
  { intros w (later & Hlog & Hno). unfold_calls. destruct (fails w).
    - eexists (_ :: later ++ [ev_save w0; ev_context]). split.
      + simpl. rewrite Hlog. now rewrite <- app_assoc.
      + intros addr data ok [Hin | Hin].
        * inversion Hin; subst addr data ok.
          repeat split; [|discriminate].
          eexists (_ :: later). reflexivity.
        * exfalso. apply in_app_or in Hin as [Hin | [Hin | [Hin | []]]];
            try discriminate.
          rewrite Forall_forall in Hno.
          now apply (Hno _ (proj2 (list_elem_of_In _ _) Hin)).
    - eexists (_ :: later). repeat split.
      + simpl. rewrite Hlog. reflexivity.
      + constructor.
        * intros _. reflexivity.
        * eapply Forall_impl; [exact Hno|]. simpl. intros e He H541. contradiction.
      + simpl. unfold saved_bytes. simpl. apply read_bytes_written. }
  intros _.
  eapply hoare_bind with (Q1 := fun _ => bytes_restored w0); [restored_step | intros _].
  eapply hoare_bind with (Q1 := fun _ => bytes_restored w0); [restored_step | intros _].
  apply hoare_ret. intros w Hw. now apply bytes_restored_spec.
Qed.

End RestoreProofs.

(** C2.  Whatever the build, a write of line 541 goes to the entry point and
    writes the two bytes that the read of line 495 took from there before
    any other call touched the target (the patch of line 497 comes after
    it); when it succeeds, [dll_inject] leaves these bytes at the entry
    point. *)
Theorem restored_bytes_are_saved_bytes (a : arch) (lib : string) (w : world)
  (addr : Z) (data : list Z) (ok : bool) :
  let w' := snd (dll_inject a lib w) in
  let oep := LoaderRegister (w_ctx w) in
  let saved := read_bytes (w_mem w) oep 2 in
  In {| ev_line := 541; ev_api := WriteProcessMemory addr data; ev_ok := ok |}
     (new_events w w') ->
  addr = oep /\ data = saved /\
  (exists later,
     new_events w w'
     = later ++ [{| ev_line := 495; ev_api := ReadProcessMemory oep saved; ev_ok := true |};
                 {| ev_line := 490; ev_api := GetThreadContext; ev_ok := true |}]) /\
  (ok = true -> read_bytes (w_mem w') oep 2 = saved).
Proof.
  intros w' oep saved Hin.
  assert (Hspec : restore_spec w w').
  { pose proof (dll_inject_body_restore w a lib w eq_refl) as H.
    unfold w', dll_inject. destruct (dll_inject_body a lib w) as [[x| |] w1]; exact H. }
  destruct Hspec as (evs & Hlog & Hspec).
  rewrite (new_events_app _ _ _ Hlog) in *.
  destruct (Hspec addr data ok Hin) as (-> & -> & Hlater & Hmem).
  repeat split; auto.
Qed.

Lemma restored_bytes_are_saved_bytes_witness :
  read_bytes (w_mem (snd (dll_inject M_IX86 "libzzuf.dll" (world0 None)))) 0x401000 2
  = [0x55; 0x8B].
Proof.
  apply (restored_bytes_are_saved_bytes M_IX86 "libzzuf.dll" (world0 None)
           0x401000 [0x55; 0x8B] true).
  - vm_compute. do 2 right. left. reflexivity.
  - reflexivity.
Defined.

(** *** What [dll_inject] logs and what it leaves alone *)

Section FrameProofs.

Context (w0 : world).

Lemma after_calls_refl (lines : list nat) : after_calls_from lines w0 w0.
Proof. repeat split. exists []. split; [reflexivity | constructor]. Qed.

Lemma after_calls_step (lines : list nat) (w w1 : world) (line : nat) (a : api)
  (ok : bool) :
  after_calls_from lines w0 w ->
  In line lines ->
  w_log w1 = {| ev_line := line; ev_api := a; ev_ok := ok |} :: w_log w ->
  (w_fails w1 = w_fails w /\ w_env w1 = w_env w /\
   w_child_env w1 = w_child_env w /\ w_pinfo w1 = w_pinfo w /\
   w_alive w1 = w_alive w) ->
  after_calls_from lines w0 w1.
Proof.
  intros ((evs & Hlog & Hall) & Hf & He & Hc & Hp & Ha) Hin Hw1 (Hf1 & He1 & Hc1 & Hp1 & Ha1).
  repeat split; try congruence.
  exists ({| ev_line := line; ev_api := a; ev_ok := ok |} :: evs). split.
  - rewrite Hw1, Hlog. reflexivity.
  - constructor; assumption.
Qed.

Ltac in_lines := unfold inject_lines; repeat first [left; reflexivity | right].

Ltac frame_step :=
  let w := fresh "w" in
  let Hw := fresh "Hw" in
  intros w Hw;
  unfold GetThreadContext_at, ReadProcessMemory_at, WriteProcessMemory_at,
    FlushInstructionCache_at, ResumeThread_at, SuspendThread_at,
    SetThreadContext_at, malloc_at, Sleep_at, call; cbv zeta;
  try destruct (fails w);
  (eapply after_calls_step; [exact Hw | | reflexivity | repeat split]; in_lines).

Lemma wait_for_entry_frame (oep : Z) (polls : list CONTEXT) (ctxt : CONTEXT) :
  hoare (after_calls_from inject_lines w0) (wait_for_entry oep ctxt polls)
    (fun _ => after_calls_from inject_lines w0) (after_calls_from inject_lines w0).
Proof.
  revert ctxt. induction polls as [|c polls IH]; intros ctxt; simpl.
  - destruct (oep =? InstructionPointer ctxt).
    + apply hoare_ret. auto.
    + intros w Hw. exact Hw.
  - destruct (oep =? InstructionPointer ctxt).
    + apply hoare_ret. auto.
    + eapply hoare_bind with (Q1 := fun _ => after_calls_from inject_lines w0);
        [frame_step | intros _].
      eapply hoare_bind with (Q1 := fun _ => after_calls_from inject_lines w0);
        [frame_step | intros _].
      apply IH.
Qed.

Lemma dll_inject_body_frame (a : arch) (lib : string) :
  hoare (after_calls_from inject_lines w0) (dll_inject_body a lib)
    (fun _ => after_calls_from inject_lines w0) (after_calls_from inject_lines w0).
Proof.
  unfold dll_inject_body. cbv zeta.
  repeat (eapply hoare_bind with (Q1 := fun _ => after_calls_from inject_lines w0);
          [first [ frame_step
                 | intros w Hw; now apply wait_for_entry_frame
                 | intros w Hw; unfold resolve_LoadLibraryA; cbv zeta;
                   destruct (_ =? 0);
                   (eapply after_calls_step;
                    [exact Hw | | reflexivity | repeat split]; in_lines)
                 | intros w Hw; unfold VirtualAllocEx_at;
                   destruct (w_alloc w =? 0);
                   [eapply after_calls_step;
                    [exact Hw | | reflexivity | repeat split]; in_lines
                   | revert w Hw; frame_step] ]
          | intros ?]).
  apply hoare_ret. auto.
Qed.

(** [dll_inject] logs calls of its own lines only and touches neither the
    launcher's environment nor the life of the target. *)
Lemma dll_inject_frame (a : arch) (lib : string) :
  after_calls_from inject_lines w0 (snd (dll_inject a lib w0)).
Proof.
  pose proof (dll_inject_body_frame a lib w0 (after_calls_refl _)) as H.
  unfold dll_inject. destruct (dll_inject_body a lib w0) as [[x| |] w1]; exact H.
Qed.

(** [dll_inject] returns 0 or -1 when it returns. *)
Lemma dll_inject_result (a : arch) (lib : string) (r : Z) (w : world) :
  dll_inject a lib w0 = (Ok r, w) -> r = 0 \/ r = -1.
Proof.
  unfold dll_inject. destruct (dll_inject_body a lib w0) as [[x| |] w1];
    intros [= <- _]; auto.
Qed.

End FrameProofs.

(** *** The launcher on the Windows path *)

Lemma create_process_spec (c : child) (o : opts) (pipes : list (Z * Z))
  (w w1 : world) :
  create_process c o pipes w = (true, w1) ->
  (exists e, ev_line e = 372%nat /\ w_log w1 = e :: w_log w) /\
  w_child_env w1
  = Some (set_environment o (w_osfhandle w (wr_end pipes 0)) (w_env w)).
Proof.
  unfold create_process. cbv zeta.
  destruct (fails _); intros [= <-].
  split; [eexists; split; [|reflexivity]; reflexivity | reflexivity].
Qed.

Lemma inject_lines_not_402 (line : nat) : In line inject_lines -> line <> 402%nat.
Proof.
  unfold inject_lines. simpl. intros H ->.
  repeat (destruct H as [H | H]; [discriminate|]). exact H.
Qed.

Lemma TerminateProcess_at_log (line : nat) (w : world) :
  exists ok,
    w_log (TerminateProcess_at line w)
    = {| ev_line := line; ev_api := TerminateProcess; ev_ok := ok |} :: w_log w /\
    (ok = true -> w_alive (TerminateProcess_at line w) = false) /\
    w_child_env (TerminateProcess_at line w) = w_child_env w.
Proof.
  unfold TerminateProcess_at. destruct (fails w); eexists; repeat split.
  discriminate.
Qed.

(** C5.  After the target was created, when [dll_inject] returns -1 the
    launcher returns -1, its one further call is [TerminateProcess] (line
    396), which ends the target when it succeeds, and the launch makes no
    call from line 402, the resume of the main thread; and a call from line
    402 is a [ResumeThread] that comes after [dll_inject] has returned 0. *)
Theorem injection_failure_terminates_without_resume
  (cfg : config) (a : arch) (c : child) (o : opts) (pipes : list (Z * Z))
  (w : world) :
  fst (create_process c o pipes w) = true ->
  let w1 := snd (create_process c o pipes w) in
  let w2 := snd (dll_inject a (SONAME cfg) w1) in
  let res := run_process_win cfg a c o pipes w in
  let w' := snd res in
  (fst (dll_inject a (SONAME cfg) w1) = Ok (-1) ->
   fst (fst res) = Ok (-1) /\
   (exists ok,
      w_log w' = {| ev_line := 396; ev_api := TerminateProcess; ev_ok := ok |}
                 :: w_log w2 /\
      (ok = true -> w_alive w' = false)) /\
   Forall (fun e => ev_line e <> 402%nat) (new_events w w'))
  /\ (forall e,
        In e (new_events w w') ->
        ev_line e = 402%nat ->
        ev_api e = ResumeThread /\
        fst (dll_inject a (SONAME cfg) w1) = Ok 0 /\
        exists later, w_log w' = later ++ e :: w_log w2).
Proof.
  intros Hfst w1 w2 res w'.
  assert (Hcreate : create_process c o pipes w = (true, w1))
    by (unfold w1; destruct (create_process c o pipes w); simpl in *; congruence).
  clear Hfst. subst w2. clearbody w1.
  destruct (create_process_spec _ _ _ _ _ Hcreate) as [(e0 & He0 & Hlog1) _].
  destruct (dll_inject_frame w1 a (SONAME cfg)) as [(evs & Hlog2 & Hlines) _].
  assert (Hevs : Forall (fun e => ev_line e <> 402%nat) (evs ++ [e0])).
  { apply Forall_app. split.
    - eapply Forall_impl; [exact Hlines|]. intros e. apply inject_lines_not_402.
    - constructor; [|constructor]. rewrite He0. discriminate. }
  unfold w', res, run_process_win. rewrite Hcreate.
  destruct (dll_inject a (SONAME cfg) w1) as [[r| |] w2] eqn:Einj;
    cbn [snd fst] in *.
  - destruct (dll_inject_result _ _ _ _ _ Einj) as [-> | ->];
      cbn [Z.ltb Z.compare snd fst].
    + (* dll_inject returned 0 *)
      destruct (fails w2) eqn:Ef; cbn [snd fst]; (split; [intros [=]|]).
      * destruct (TerminateProcess_at_log 405 (logged 402 ResumeThread false w2))
          as (ok & Hlog & _).
        rewrite (new_events_app w _
                   ({| ev_line := 405; ev_api := TerminateProcess; ev_ok := ok |}
                    :: {| ev_line := 402; ev_api := ResumeThread; ev_ok := false |}
                    :: evs ++ [e0]))
          by (rewrite Hlog; simpl; rewrite Hlog2, Hlog1, <- app_assoc; reflexivity).
        intros e [<- | [<- | Hin]] H402; try discriminate.
        -- split; [reflexivity|]. split; [reflexivity|].
           exists [{| ev_line := 405; ev_api := TerminateProcess; ev_ok := ok |}].
           rewrite Hlog. reflexivity.
        -- exfalso. rewrite Forall_forall in Hevs.
           now apply (Hevs _ (proj2 (list_elem_of_In _ _) Hin)).
      * rewrite (new_events_app w _
                   ({| ev_line := 402; ev_api := ResumeThread; ev_ok := true |}
                    :: evs ++ [e0]))
          by (simpl; rewrite Hlog2, Hlog1, <- app_assoc; reflexivity).
        intros e [<- | Hin] H402.
        -- split; [reflexivity|]. split; [reflexivity|]. exists []. reflexivity.
        -- exfalso. rewrite Forall_forall in Hevs.
           now apply (Hevs _ (proj2 (list_elem_of_In _ _) Hin)).
    + (* dll_inject returned -1 *)
      destruct (TerminateProcess_at_log 396 w2) as (ok & Hlog & Halive & _).
      assert (Hnew : new_events w (TerminateProcess_at 396 w2)
                     = {| ev_line := 396; ev_api := TerminateProcess; ev_ok := ok |}
                       :: evs ++ [e0]).
      { apply new_events_app. rewrite Hlog, Hlog2, Hlog1. simpl.
        now rewrite <- app_assoc. }
      rewrite Hnew. split.
      * intros _. split; [reflexivity|]. split; [eauto|].
        constructor; [discriminate | exact Hevs].
      * intros e [<- | Hin] H402; [discriminate|].
        exfalso. rewrite Forall_forall in Hevs.
        now apply (Hevs _ (proj2 (list_elem_of_In _ _) Hin)).
  - rewrite (new_events_app w _ (evs ++ [e0]))
      by (rewrite Hlog2, Hlog1, <- app_assoc; reflexivity).
    split; [intros [=]|].
    intros e Hin H402. exfalso. rewrite Forall_forall in Hevs.
    now apply (Hevs _ (proj2 (list_elem_of_In _ _) Hin)).
  - rewrite (new_events_app w _ (evs ++ [e0]))
      by (rewrite Hlog2, Hlog1, <- app_assoc; reflexivity).
    split; [intros [=]|].
    intros e Hin H402. exfalso. rewrite Forall_forall in Hevs.
    now apply (Hevs _ (proj2 (list_elem_of_In _ _) Hin)).
Qed.

Lemma injection_failure_witness :
  let pipes := [(3, 4); (5, 6); (7, 8)] in
  let w := world0 (Some 10%nat) in
  let res := run_process_win cfg0 M_IX86 child0 (opts0 OPMODE_PRELOAD) pipes w in
  fst (fst res) = Ok (-1) /\
  Forall (fun e => ev_line e <> 402%nat) (new_events w (snd res)).
Proof.
  intros pipes w res.
  assert (Hcreate : fst (create_process child0 (opts0 OPMODE_PRELOAD) pipes w) = true)
    by (vm_compute; reflexivity).
  destruct (injection_failure_terminates_without_resume cfg0 M_IX86 child0
              (opts0 OPMODE_PRELOAD) pipes w Hcreate) as [H _].
  assert (Hfail : fst (dll_inject M_IX86 (SONAME cfg0)
                         (snd (create_process child0 (opts0 OPMODE_PRELOAD) pipes w)))
                  = Ok (-1)) by (vm_compute; reflexivity).
  destruct (H Hfail) as (Hres & _ & Hno).
  split; [exact Hres | exact Hno].
Defined.

Lemma set_environment_lookup (o : opts) (debugfd : Z) (e : gmap string string) :
  set_environment o debugfd e !! "ZZUF_SEED" = Some (sprintf_i (seed o)) /\
  set_environment o debugfd e !! "ZZUF_MINRATIO" = Some (sprintf_g (minratio o)) /\
  set_environment o debugfd e !! "ZZUF_MAXRATIO" = Some (sprintf_g (maxratio o)).
Proof. unfold set_environment, setenv. repeat split; now simplify_map_eq. Qed.

Lemma run_process_win_child_env (cfg : config) (a : arch) (c : child) (o : opts)
  (pipes : list (Z * Z)) (w : world) :
  fst (create_process c o pipes w) = true ->
  w_child_env (snd (run_process_win cfg a c o pipes w))
  = Some (set_environment o (w_osfhandle w (wr_end pipes 0)) (w_env w)).
Proof.
  intros Hcreate. unfold run_process_win.
  destruct (create_process c o pipes w) as [b w1] eqn:Ecreate.
  simpl in Hcreate. subst b.
  destruct (create_process_spec _ _ _ _ _ Ecreate) as [_ <-].
  destruct (dll_inject_frame w1 a (SONAME cfg)) as (_ & _ & _ & Hc & _).
  destruct (dll_inject a (SONAME cfg) w1) as [[r| |] w2]; cbn [snd] in *; auto.
  destruct (r <? 0); cbn [snd].
  - destruct (TerminateProcess_at_log 396 w2) as (ok & _ & _ & ->). exact Hc.
  - destruct (fails w2); cbn [snd].
    + destruct (TerminateProcess_at_log 405 (logged 402 ResumeThread false w2))
        as (ok & _ & _ & ->). exact Hc.
    + exact Hc.
Qed.

(** C8, as amended.  On both paths, for a seed that is an [int] and ratios
    that are numbers, the target's [ZZUF_SEED] is the decimal text of the
    configured seed (a minus sign when it is negative, then its digits
    without leading zeros), which denotes the seed, and [ZZUF_MINRATIO] and
    [ZZUF_MAXRATIO] are the [%g] texts of the ratios, which keep six
    significant digits. *)
Theorem seed_and_ratio_text (cfg : config) (o : opts) :
  int_range (seed o) ->
  is_number (minratio o) ->
  is_number (maxratio o) ->
  decimal_value (decimal_text (seed o)) = Some (seed o)
  /\ (forall (sys : os) (c : child) (p0 p1 p2 : Z * Z) (p : process),
        fork_result sys = 0 ->
        let e' := child_env cfg sys c o [p0; p1; p2] p in
        e' !! "ZZUF_SEED" = Some (decimal_text (seed o)) /\
        e' !! "ZZUF_MINRATIO" = Some (sprintf_g (minratio o)) /\
        e' !! "ZZUF_MAXRATIO" = Some (sprintf_g (maxratio o)))
  /\ (forall (a : arch) (c : child) (pipes : list (Z * Z)) (w : world),
        fst (create_process c o pipes w) = true ->
        exists e',
          w_child_env (snd (run_process_win cfg a c o pipes w)) = Some e' /\
          e' !! "ZZUF_SEED" = Some (decimal_text (seed o)) /\
          e' !! "ZZUF_MINRATIO" = Some (sprintf_g (minratio o)) /\
          e' !! "ZZUF_MAXRATIO" = Some (sprintf_g (maxratio o))).
Proof.
  intros Hseed _ _. split; [apply decimal_value_decimal_text|]. split.
  - intros sys c p0 p1 p2 p Hfork e'.
    destruct (child_env_lookup cfg sys c o p0 p1 p2 p Hfork) as (_ & Hs & Hmin & Hmax & _).
    rewrite (sprintf_i_in_range _ Hseed) in Hs. repeat split; auto.
  - intros a c pipes w Hcreate.
    rewrite (run_process_win_child_env cfg a c o pipes w Hcreate).
    eexists. split; [reflexivity|].
    destruct (set_environment_lookup o (w_osfhandle w (wr_end pipes 0)) (w_env w))
      as (Hs & Hmin & Hmax).
    rewrite (sprintf_i_in_range _ Hseed) in Hs. repeat split; auto.
Qed.

Lemma seed_and_ratio_text_witness :
  (child_env cfg0 sys_child child0 (opts0 OPMODE_PRELOAD) [(3, 4); (5, 6); (7, 8)] process0
     !! "ZZUF_SEED" = Some "42"
   /\ child_env cfg0 sys_child child0 (opts0 OPMODE_PRELOAD) [(3, 4); (5, 6); (7, 8)]
        process0 !! "ZZUF_MINRATIO" = Some "0.1")
  /\ exists e',
       w_child_env (snd (run_process_win cfg0 M_IX86 child0 (opts0 OPMODE_PRELOAD)
                           [(3, 4); (5, 6); (7, 8)] (world0 None))) = Some e'
       /\ e' !! "ZZUF_MAXRATIO" = Some "0.9".
Proof.
  destruct (seed_and_ratio_text cfg0 (opts0 OPMODE_PRELOAD)) as (_ & Hfork & Hwin).
  - unfold int_range. simpl. lia.
  - discriminate.
  - discriminate.
  - split.
    + destruct (Hfork sys_child child0 (3, 4) (5, 6) (7, 8) process0 eq_refl)
        as (Hs & Hmin & _).
      exact (conj Hs Hmin).
    + destruct (Hwin M_IX86 child0 [(3, 4); (5, 6); (7, 8)] (world0 None) eq_refl)
        as (e' & He' & _ & _ & Hmax).
      exists e'. split; [exact He' | exact Hmax].
Defined.

Lemma double_samples_differ : double_0_1234567 <> double_0_123457.
Proof.
  intros E. injection E as E. revert E. apply Pos.eqb_neq. vm_compute. reflexivity.
Qed.

(** C8, the claim as written fails: the texts of the ratios do not give the
    ratios back.  Two different doubles, the ones nearest to 0.1234567 and to
    0.123457, leave the same [ZZUF_MINRATIO], so no reading of the text
    returns the configured ratio for both. *)
Lemma ratio_text_does_not_round_trip :
  ~ (exists strtod : string -> spec_float,
       forall o : opts,
         is_double (minratio o) ->
         option_map strtod
           (child_env cfg0 sys_child child0 o [(3, 4); (5, 6); (7, 8)] process0
              !! "ZZUF_MINRATIO")
         = Some (minratio o)).
Proof.
  intros [strtod H].
  pose (o1 := {| opmode := OPMODE_PRELOAD; oldargv := ["target"; "-x"]; seed := 42;
                 minratio := double_0_1234567; maxratio := double_0_9;
                 maxmem := -1; maxcpu := -1 |}).
  pose (o2 := {| opmode := OPMODE_PRELOAD; oldargv := ["target"; "-x"]; seed := 42;
                 minratio := double_0_123457; maxratio := double_0_9;
                 maxmem := -1; maxcpu := -1 |}).
  pose proof (H o1 eq_refl) as H1. pose proof (H o2 eq_refl) as H2.
  assert (E1 : child_env cfg0 sys_child child0 o1 [(3, 4); (5, 6); (7, 8)] process0
               !! "ZZUF_MINRATIO" = Some "0.123457") by (vm_compute; reflexivity).
  assert (E2 : child_env cfg0 sys_child child0 o2 [(3, 4); (5, 6); (7, 8)] process0
               !! "ZZUF_MINRATIO" = Some "0.123457") by (vm_compute; reflexivity).
  rewrite E1 in H1. rewrite E2 in H2.
  change (Some (strtod "0.123457") = Some double_0_1234567) in H1.
  change (Some (strtod "0.123457") = Some double_0_123457) in H2.
  apply double_samples_differ. congruence.
Qed.

(** ** The export resolver *)

Lemma byte_of_ascii_inj (x y : ascii) : byte_of_ascii x = byte_of_ascii y -> x = y.
Proof.
  unfold byte_of_ascii. intros H. apply N2Z.inj in H.
  rewrite <- (ascii_N_embedding x), <- (ascii_N_embedding y). now rewrite H.
Qed.

Lemma byte_of_ascii_zero (x : ascii) : byte_of_ascii x = 0 -> x = Ascii.zero.
Proof. intros H. apply byte_of_ascii_inj. exact H. Qed.

Lemma tolower_zero (x : ascii) : tolower x = Ascii.zero -> x = Ascii.zero.
Proof.
  destruct x as [[] [] [] [] [] [] [] []]; vm_compute; intros H;
    first [reflexivity | discriminate H].
Qed.

Lemma c_string_cons (x : ascii) (s : string) :
  c_string (String x s) -> x <> Ascii.zero /\ c_string s.
Proof.
  unfold c_string. simpl. intros H. apply orb_false_iff in H as [Hx Hs].
  split; [|exact Hs]. intros ->. now rewrite Ascii.eqb_refl in Hx.
Qed.

(** On C strings [stricmp] is zero exactly when the lowercased strings are
    equal. *)
Lemma stricmp_zero (s t : string) :
  c_string s -> c_string t -> (stricmp s t = 0 <-> lowercase s = lowercase t).
Proof.
  revert t. induction s as [|x s IH]; intros [|y t] Hs Ht; simpl.
  - tauto.
  - apply c_string_cons in Ht as [Hy _]. split; [|discriminate].
    intros H. exfalso. apply Hy, tolower_zero, byte_of_ascii_zero. lia.
  - apply c_string_cons in Hs as [Hx _]. split; [|discriminate].
    intros H. exfalso. apply Hx, tolower_zero, byte_of_ascii_zero. lia.
  - apply c_string_cons in Hs as [_ Hs]. apply c_string_cons in Ht as [_ Ht].
    destruct (Ascii.eqb_spec (tolower x) (tolower y)) as [E | E].
    + rewrite E, (IH t Hs Ht). split; [now intros -> | now intros [= ->]].
    + split.
      * intros H. exfalso. apply E, byte_of_ascii_inj. lia.
      * intros [= H _]. contradiction.
Qed.

(** The test of line 581 is the comparison of the lowercased name. *)
Lemma stricmp_kernel32 (entry : MODULEENTRY32) :
  c_string (szModule entry) ->
  (stricmp "kernel32.dll" (szModule entry) =? 0) = named_kernel32 entry.
Proof.
  intros Hc. unfold named_kernel32.
  destruct (Z.eqb_spec (stricmp "kernel32.dll" (szModule entry)) 0) as [E | E];
    symmetry.
  - apply String.eqb_eq. symmetry. now apply (stricmp_zero "kernel32.dll").
  - apply String.eqb_neq. intros H. apply E.
    apply (stricmp_zero "kernel32.dll"); [reflexivity | exact Hc | now symmetry].
Qed.

Lemma read_bytes_length (mem : Z -> Z) (addr : Z) (n : nat) :
  length (read_bytes mem addr n) = n.
Proof. unfold read_bytes. now rewrite length_map, length_seq. Qed.

Lemma bytes_of_string_length (s : string) :
  length (bytes_of_string s) = String.length s.
Proof.
  unfold bytes_of_string. rewrite length_map.
  induction s as [|x s IH]; simpl; [reflexivity | now rewrite IH].
Qed.

Lemma bytes_of_c_string (s : string) :
  c_string s -> Forall (fun b => b <> 0) (bytes_of_string s).
Proof.
  induction s as [|x s IH]; intros Hc; unfold bytes_of_string; simpl.
  - constructor.
  - apply c_string_cons in Hc as [Hx Hs]. constructor.
    + intros H. now apply Hx, byte_of_ascii_zero.
    + now apply IH.
Qed.

(** [strcmp] finds a buffer of the right length equal to a C string exactly
    when they are the same bytes. *)
Lemma strcmp_zero (buf bs : list Z) :
  Forall (fun b => b <> 0) bs ->
  length buf = S (length bs) ->
  strcmp buf (bs ++ [0]) = 0 ->
  buf = bs ++ [0].
Proof.
  revert buf. induction bs as [|b bs IH]; intros [|x buf] Hnz Hlen; simpl in *;
    try discriminate.
  - destruct buf; [|discriminate].
    destruct (Z.eqb_spec x 0) as [-> | Hx]; [reflexivity | lia].
  - apply Forall_cons in Hnz as [Hb Hnz].
    destruct (Z.eqb_spec x b) as [-> | Hx]; [|lia].
    destruct (Z.eqb_spec b 0); [contradiction|].
    intros H. f_equal. apply IH; auto.
Qed.

Section ResolverProofs.

Context (a : arch) (mem : Z -> Z).

(** A name found by the loop of line 594 is a name of the table. *)
Lemma scan_names_Some (n : nat) (i base expdir : Z) (func : string) (ret : Z) :
  c_string func ->
  scan_names a mem n i base expdir func = Some ret ->
  exists k,
    i <= k < i + Z.of_nat n /\
    c_string_at mem
      (wrap_ptr a
         (base + read_u32 mem
                   (wrap_ptr a (base + read_u32 mem (expdir + AddressOfNames_offset)
                                + k * 4))))
      func.
Proof.
  intros Hc. revert i. induction n as [|n IH]; intros i; cbn [scan_names];
    [discriminate|].
  match goal with
  | |- context [strcmp ?b ?s =? 0] => destruct (Z.eqb_spec (strcmp b s) 0) as [E | E]
  end; cbn [negb].
  - intros _. exists i. split; [lia|]. unfold c_string_at.
    apply strcmp_zero in E; auto using bytes_of_c_string.
    now rewrite read_bytes_length, bytes_of_string_length.
  - intros H. destruct (IH (i + 1) H) as (k & Hk & Hat).
    exists k. split; [lia | exact Hat].
Qed.

(** C10.  With C strings for the module names and the function name, the
    resolver gives what it gives on the modules called kernel32.dll (in any
    case of letters) alone, the others being skipped, and gives NULL when no
    module of that name exports the function. *)
Theorem resolver_consults_kernel32_only (modules : list MODULEENTRY32)
  (func : string) :
  Forall (fun entry => c_string (szModule entry)) modules ->
  c_string func ->
  get_proc_address a mem modules func
  = get_proc_address a mem (List.filter named_kernel32 modules) func
  /\ ((forall entry, In entry modules -> named_kernel32 entry = true ->
                     ~ exports a mem entry func) ->
      get_proc_address a mem modules func = 0).
Proof.
  intros Hnames Hfunc. split.
  - induction Hnames as [|entry rest Hentry Hrest IH];
      cbn [get_proc_address List.filter]; [reflexivity|].
    rewrite (stricmp_kernel32 entry Hentry).
    destruct (named_kernel32 entry) eqn:Ek; cbn [negb get_proc_address]; [|exact IH].
    rewrite (stricmp_kernel32 entry Hentry), Ek. cbn [negb].
    destruct (export_directory a mem (modBaseAddr entry)) as [expdir|]; [|exact IH].
    destruct (scan_names _ _ _ _ _ _ _); [reflexivity | exact IH].
  - induction Hnames as [|entry rest Hentry Hrest IH]; intros Hno;
      cbn [get_proc_address]; [reflexivity|].
    assert (Hrest0 : get_proc_address a mem rest func = 0)
      by (apply IH; intros e He; apply Hno; now right).
    rewrite (stricmp_kernel32 entry Hentry).
    destruct (named_kernel32 entry) eqn:Ek; cbn [negb]; [|exact Hrest0].
    destruct (export_directory a mem (modBaseAddr entry)) as [expdir|] eqn:Ed;
      [|exact Hrest0].
    destruct (scan_names _ _ _ _ _ _ _) as [ret|] eqn:Es; [|exact Hrest0].
    exfalso. apply (Hno entry (or_introl eq_refl) Ek).
    destruct (scan_names_Some _ _ _ _ _ _ Hfunc Es) as (k & Hk & Hat).
    exists expdir, k. repeat split; auto; try lia.
    unfold names_count in Hk. lia.
Qed.

End ResolverProofs.

Lemma resolver_consults_kernel32_only_witness :
  get_proc_address M_IX86 memory0 modules0 "LoadLibraryA"
  = get_proc_address M_IX86 memory0 (List.filter named_kernel32 modules0) "LoadLibraryA"
  /\ get_proc_address M_IX86 memory0
       [{| szModule := "ntdll.dll"; modBaseAddr := 0x10000 |}] "LoadLibraryA" = 0.
Proof.
  split.
  - apply (resolver_consults_kernel32_only M_IX86 memory0 modules0 "LoadLibraryA").
    + repeat constructor.
    + reflexivity.
  - apply (resolver_consults_kernel32_only M_IX86 memory0
             [{| szModule := "ntdll.dll"; modBaseAddr := 0x10000 |}] "LoadLibraryA").
    + repeat constructor.
    + reflexivity.
    + intros entry [<- | []] H. vm_compute in H. discriminate.
Defined.

(** The sample image resolves [LoadLibraryA] through the module list. *)
Example get_proc_address_sample :
  get_proc_address M_IX86 memory0 modules0 "LoadLibraryA" = 0x11234
  /\ get_proc_address M_IX86 memory0 modules0 "LoadLibrary" = 0
  /\ get_proc_address M_IX86 memory0 modules0 "LoadLibraryAB" = 0.
Proof. vm_compute. repeat split. Qed.

(** ** A whole launch

    The child of a launch in preload mode with seed 42 and ratios 0.1 and
    0.9: the three write ends sit on the well-known descriptors, the pipe
    descriptors are closed, the CPU limit is set and the environment holds
    the harness variables and the library next to the target. *)
Example launch_scenario :
  match myfork cfg0 sys_child child0 (opts0 OPMODE_PRELOAD) process0 with
  | Execed path argv p' =>
      path = "./dir/target" /\ argv = ["./dir/target"; "-x"]
      /\ map (fun d => fds p' !! d) [0; 1; 2; 3; 4; 5; 6; 7; 8]
         = [Some (inherited 0); Some (pipe_write 2); Some (pipe_write 1);
            Some (pipe_write 0); None; None; None; None; None]
      /\ rlimit_cpu p' = Some (10, 15)
      /\ map (fun name => env p' !! name)
           ["ZZUF_DEBUGFD"; "ZZUF_SEED"; "ZZUF_MINRATIO"; "ZZUF_MAXRATIO"; "LD_PRELOAD"]
         = [Some "3"; Some "42"; Some "0.1"; Some "0.9"; Some "./dir/.libs/libzzuf.so"]
  | _ => False
  end.
Proof. vm_compute. repeat split. Qed.

(** * Further properties of the launcher *)

(** ** The fork path: what [myfork] returns and leaves behind *)

Lemma create_pipes_length (i n : nat) (results : list (option (Z * Z)))
  (p p' : process) (pipefds : list (Z * Z)) :
  create_pipes i n results p = (Some pipefds, p') -> length pipefds = n.
Proof.
  revert i results p p' pipefds.
  induction n as [|n IH]; intros i results p p' pipefds; simpl.
  - now intros [= <- _].
  - destruct results as [|[[rd wr]|] results]; try discriminate.
    destruct (create_pipes (S i) n results (open_pipe i rd wr p)) as [[l|] q] eqn:E;
      intros [= <- _].
    simpl. f_equal. exact (IH _ _ _ _ _ E).
Qed.

Lemma create_pipes_env (i n : nat) (results : list (option (Z * Z))) (p : process) :
  env (snd (create_pipes i n results p)) = env p.
Proof.
  revert i results p. induction n as [|n IH]; intros i results p; simpl; [reflexivity|].
  destruct results as [|[[rd wr]|] results]; try reflexivity.
  specialize (IH (S i) results (open_pipe i rd wr p)).
  destruct (create_pipes (S i) n results (open_pipe i rd wr p)) as [[l|] q];
    exact IH.
Qed.

Lemma close_env (d : Z) (p : process) : env (close d p) = env p.
Proof. reflexivity. Qed.

Section ForkMore.

Context (cfg : config).

(** X1.  [myfork] returns 0 or -1 and nothing else: 0 in the parent, after
    three pipes and a [fork] that gave a positive pid, with the pid and the
    three read ends stored in the child descriptor; -1 when a [pipe] or the
    [fork] failed, the descriptor untouched.  In the child ([fork] gave 0)
    it never returns: the image is replaced, or the process exits with
    [EXIT_FAILURE] when [execvp] fails. *)
Theorem myfork_outcomes (sys : os) (c : child) (o : opts) (p : process) :
  match myfork cfg sys c o p with
  | Returned r c' p' =>
      (r = 0 /\ 0 < fork_result sys /\
       exists r0 w0 r1 w1 r2 w2,
         fst (create_pipes 0 3 (pipe_results sys) p)
         = Some [(r0, w0); (r1, w1); (r2, w2)] /\
         pid c' = fork_result sys /\ fd c' = [r0; r1; r2] /\
         newargv c' = newargv c)
      \/ (r = -1 /\ c' = c /\
          (fst (create_pipes 0 3 (pipe_results sys) p) = None \/ fork_result sys < 0))
  | Execed path argv p' =>
      fork_result sys = 0 /\ execvp_ok sys = true /\
      path = argv0 (newargv c) /\ argv = newargv c
  | Exited status p' =>
      fork_result sys = 0 /\ execvp_ok sys = false /\ status = EXIT_FAILURE
  end.
Proof.
  unfold myfork.
  destruct (create_pipes 0 3 (pipe_results sys) p) as [[pipefds|] p1] eqn:Ep;
    [|right; repeat split; auto].
  pose proof (create_pipes_length _ _ _ _ _ _ Ep) as Hlen.
  destruct pipefds as [|[r0 w0] [|[r1 w1] [|[r2 w2] [|]]]]; try discriminate.
  unfold run_process.
  set (q := match host cfg with Apple => _ | _ => p1 end). clearbody q.
  destruct (Z.ltb_spec (fork_result sys) 0) as [Hneg | Hpos].
  - right. repeat split; auto.
  - destruct (Z.eqb_spec (fork_result sys) 0) as [H0 | Hne]; cbn [negb].
    + unfold run_child.
      destruct (remap_channels cfg (q, _)) as [q' pipes'].
      destruct (execvp_ok sys) eqn:Ex; repeat split; auto.
    + destruct (Z.ltb_spec (fork_result sys) 0) as [|_]; [lia|].
      left. repeat split; [lia|]. exists r0, w0, r1, w1, r2, w2. repeat split.
Qed.

(** X2.  After a launch that returned in the parent, with pipe descriptors
    that are pairwise distinct, the launcher holds the three read ends, the
    three write ends are closed, and every other descriptor is as before. *)
Theorem parent_keeps_read_ends (sys : os) (c : child) (o : opts) (p : process)
  (r0 w0 r1 w1 r2 w2 : Z) (rest : list (option (Z * Z))) :
  pipe_results sys = Some (r0, w0) :: Some (r1, w1) :: Some (r2, w2) :: rest ->
  0 < fork_result sys ->
  NoDup [r0; w0; r1; w1; r2; w2] ->
  let p' := final_process (myfork cfg sys c o p) in
  fds p' !! r0 = Some (pipe_read 0) /\
  fds p' !! r1 = Some (pipe_read 1) /\
  fds p' !! r2 = Some (pipe_read 2) /\
  fds p' !! w0 = None /\ fds p' !! w1 = None /\ fds p' !! w2 = None /\
  (forall d, ~ In d [r0; w0; r1; w1; r2; w2] -> fds p' !! d = fds p !! d).
Proof.
  intros Hpipes Hfork Hnd p'. unfold p', myfork. rewrite Hpipes. simpl create_pipes.
  unfold run_process.
  set (q0 := open_pipe 2 r2 w2 (open_pipe 1 r1 w1 (open_pipe 0 r0 w0 p))).
  set (q := match host cfg with Apple => _ | _ => q0 end).
  assert (Hq : fds q = fds q0).
  { unfold q. destruct (host cfg); try reflexivity.
    destruct (opmode_eqb _ _); reflexivity. }
  destruct (Z.ltb_spec (fork_result sys) 0) as [|_]; [lia|].
  destruct (Z.eqb_spec (fork_result sys) 0) as [|_]; [lia|]. cbn [negb].
  destruct (Z.ltb_spec (fork_result sys) 0) as [|_]; [lia|].
  cbn [final_process]. unfold close_write_ends, wr_end. simpl.
  rewrite Hq. unfold q0. simpl.
  apply NoDup_cons in Hnd as [N0 Hnd]. apply NoDup_cons in Hnd as [N1 Hnd].
  apply NoDup_cons in Hnd as [N2 Hnd]. apply NoDup_cons in Hnd as [N3 Hnd].
  apply NoDup_cons in Hnd as [N4 Hnd]. apply NoDup_cons in Hnd as [N5 _].
  rewrite !list_elem_of_In in *. simpl in *.
  assert (r0 <> w0 /\ r0 <> r1 /\ r0 <> w1 /\ r0 <> r2 /\ r0 <> w2 /\
          w0 <> r1 /\ w0 <> w1 /\ w0 <> r2 /\ w0 <> w2 /\
          r1 <> w1 /\ r1 <> r2 /\ r1 <> w2 /\ w1 <> r2 /\ w1 <> w2 /\ r2 <> w2)
    as (? & ? & ? & ? & ? & ? & ? & ? & ? & ? & ? & ? & ? & ? & ?)
    by (repeat split; intros ->; tauto).
  repeat split;
    try (intros d Hd;
         assert (r0 <> d /\ w0 <> d /\ r1 <> d /\ w1 <> d /\ r2 <> d /\ w2 <> d)
           as (? & ? & ? & ? & ? & ?) by (repeat split; intros ->; tauto));
    repeat first [ rewrite lookup_delete_eq
                 | rewrite lookup_insert_eq
                 | rewrite lookup_delete_ne by congruence
                 | rewrite lookup_insert_ne by congruence ];
    reflexivity.
Qed.



(** X3.  On the fork path the launcher's own environment is not where the
    harness variables go: when [myfork] is not in the child, its environment
    is as before, but for [DYLD_FORCE_FLAT_NAMESPACE], which an Apple build
    in preload mode sets before it forks. *)
Theorem launcher_environment_kept (sys : os) (c : child) (o : opts) (p : process) :
  fork_result sys <> 0 ->
  let e' := env (final_process (myfork cfg sys c o p)) in
  (forall name, name <> "DYLD_FORCE_FLAT_NAMESPACE" -> e' !! name = env p !! name) /\
  (host cfg <> Apple \/ opmode o <> OPMODE_PRELOAD -> e' = env p).
Proof.
  intros Hfork e'.
  assert (He : e' = env p \/
               (host cfg = Apple /\ opmode o = OPMODE_PRELOAD /\
                e' = setenv "DYLD_FORCE_FLAT_NAMESPACE" "1" (env p))).
  { unfold e', myfork.
    pose proof (create_pipes_env 0 3 (pipe_results sys) p) as Hp.
    destruct (create_pipes 0 3 (pipe_results sys) p) as [[pipefds|] p1];
      simpl in Hp; [|now left].
    unfold run_process.
    set (q := match host cfg with Apple => _ | _ => p1 end).
    assert (Hq : env q = env p \/
                 (host cfg = Apple /\ opmode o = OPMODE_PRELOAD /\
                  env q = setenv "DYLD_FORCE_FLAT_NAMESPACE" "1" (env p))).
    { unfold q. destruct (host cfg); auto.
      destruct (opmode_eqb (opmode o) OPMODE_PRELOAD) eqn:Em; auto.
      right. apply opmode_eqb_eq in Em. simpl. rewrite Hp. auto. }
    clearbody q.
    destruct (Z.ltb_spec (fork_result sys) 0) as [Hneg | Hpos]; [exact Hq|].
    destruct (Z.eqb_spec (fork_result sys) 0) as [|_]; [contradiction|]. cbn [negb].
    destruct (Z.ltb_spec (fork_result sys) 0) as [|_]; [lia|].
    exact Hq. }
  destruct He as [-> | (Ha & Hm & ->)].
  - split; auto.
  - split.
    + intros name Hname. unfold setenv. now rewrite lookup_insert_ne.
    + intros [H | H]; contradiction.
Qed.


(** One turn of the loop leaves closed what was closed, and closes the two
    ends of the channel's pipe, the well-known number apart. *)
Lemma remap_channel_closed (j : nat) (p : process) (pipes : list (Z * Z)) (k : Z) :
  fds_table cfg !!! j <> k ->
  fds p !! k = None \/ k = rd_end pipes j \/ k = wr_end pipes j ->
  fds (fst (remap_channel cfg j (p, pipes))) !! k = None.
Proof.
  intros Ht Hk. unfold remap_channel.
  destruct (Z.eqb_spec (wr_end pipes j) (fds_table cfg !!! j)) as [E | E];
    cbn [negb fst].
  - unfold close. simpl.
    destruct (Z.eq_dec (rd_end pipes j) k) as [-> | Hr];
      [apply lookup_delete_eq | rewrite lookup_delete_ne by assumption].
    destruct Hk as [Hk | [Hk | Hk]]; congruence.
  - destruct (Z.eq_dec (wr_end pipes j) k) as [<- | Hw];
      [apply lookup_delete_eq|].
    rewrite close_lookup_ne, dup2_lookup_ne by assumption.
    unfold close. simpl.
    destruct (Z.eq_dec (rd_end pipes j) k) as [-> | Hr];
      [apply lookup_delete_eq | rewrite lookup_delete_ne by assumption].
    destruct Hk as [Hk | [Hk | Hk]]; congruence.
Qed.

(** The ends of the pipes of the channels still to come are as they were. *)
Lemma remap_channel_2_pipes (p : process) (r0 w0 r1 w1 r2 w2 : Z) :
  exists w2',
    snd (remap_channel cfg 2 (p, [(r0, w0); (r1, w1); (r2, w2)]))
    = [(r0, w0); (r1, w1); (r2, w2')].
Proof.
  unfold remap_channel, set_wr_end, rd_end, wr_end. simpl.
  destruct (negb _); eexists; reflexivity.
Qed.

Lemma remap_channel_1_pipes (p : process) (r0 w0 r1 w1 r2 w2 : Z) :
  exists w1',
    snd (remap_channel cfg 1 (p, [(r0, w0); (r1, w1); (r2, w2)]))
    = [(r0, w0); (r1, w1'); (r2, w2)].
Proof.
  unfold remap_channel, set_wr_end, rd_end, wr_end. simpl.
  destruct (negb _); eexists; reflexivity.
Qed.

(** X5.  When the six pipe descriptors are pairwise distinct, the three
    well-known numbers too, the output number is no descriptor of the debug
    and error pipes and the error number none of the debug pipe, the child
    ends its loop with the three write ends on the well-known numbers and
    with every pipe descriptor that is not a well-known number closed. *)
Theorem remap_puts_all_channels (p : process) (r0 w0 r1 w1 r2 w2 : Z)
  (f0 f1 f2 : file) :
  NoDup [r0; w0; r1; w1; r2; w2] ->
  NoDup [DEBUG_FILENO cfg; STDERR_FILENO; STDOUT_FILENO] ->
  ~ In STDOUT_FILENO [r0; w0; r1; w1] ->
  ~ In STDERR_FILENO [r0; w0] ->
  fds p !! w0 = Some f0 -> fds p !! w1 = Some f1 -> fds p !! w2 = Some f2 ->
  let p' := fst (remap_channels cfg (p, [(r0, w0); (r1, w1); (r2, w2)])) in
  fds p' !! DEBUG_FILENO cfg = Some f0 /\
  fds p' !! STDERR_FILENO = Some f1 /\
  fds p' !! STDOUT_FILENO = Some f2 /\
  (forall d, In d [r0; w0; r1; w1; r2; w2] ->
             ~ In d [DEBUG_FILENO cfg; STDERR_FILENO; STDOUT_FILENO] ->
             fds p' !! d = None).
Proof.
  intros Hnd Hnt Hout Herr H0 H1 H2 p'.
  apply NoDup_cons in Hnd as [N0 Hnd]. apply NoDup_cons in Hnd as [N1 Hnd].
  apply NoDup_cons in Hnd as [N2 Hnd]. apply NoDup_cons in Hnd as [N3 Hnd].
  apply NoDup_cons in Hnd as [N4 _].
  apply NoDup_cons in Hnt as [T0 Hnt]. apply NoDup_cons in Hnt as [T1 _].
  rewrite !list_elem_of_In in *. simpl in *.
  assert (r0 <> w0 /\ r0 <> r1 /\ r0 <> w1 /\ r0 <> r2 /\ r0 <> w2 /\
          w0 <> r1 /\ w0 <> w1 /\ w0 <> r2 /\ w0 <> w2 /\
          r1 <> w1 /\ r1 <> r2 /\ r1 <> w2 /\ w1 <> r2 /\ w1 <> w2 /\ r2 <> w2)
    as (? & ? & ? & ? & ? & ? & ? & ? & ? & ? & ? & ? & ? & ? & ?)
    by (repeat split; intros ->; tauto).
  assert (DEBUG_FILENO cfg <> STDERR_FILENO /\ DEBUG_FILENO cfg <> STDOUT_FILENO /\
          STDERR_FILENO <> STDOUT_FILENO /\
          STDOUT_FILENO <> r0 /\ STDOUT_FILENO <> w0 /\ STDOUT_FILENO <> r1 /\
          STDOUT_FILENO <> w1 /\ STDERR_FILENO <> r0 /\ STDERR_FILENO <> w0)
    as (? & ? & ? & ? & ? & ? & ? & ? & ?)
    by (repeat split; intros E; rewrite ?E in *; tauto).
  unfold p', remap_channels. cbn [fold_left].
  set (L := [(r0, w0); (r1, w1); (r2, w2)]).
  destruct (remap_channel cfg 2 (p, L)) as [q2 pipes2] eqn:E2.
  destruct (remap_channel_2_pipes p r0 w0 r1 w1 r2 w2) as [w2' Hp2].
  fold L in Hp2. rewrite E2 in Hp2. simpl in Hp2. subst pipes2.
  destruct (remap_channel cfg 1 (q2, _)) as [q1 pipes1] eqn:E1.
  destruct (remap_channel_1_pipes q2 r0 w0 r1 w1 r2 w2') as [w1' Hp1].
  rewrite E1 in Hp1. simpl in Hp1. subst pipes1.
  assert (Eq2 : q2 = fst (remap_channel cfg 2 (p, L))) by now rewrite E2.
  assert (Eq1 : q1 = fst (remap_channel cfg 1 (q2, [(r0, w0); (r1, w1); (r2, w2')])))
    by now rewrite E1.
  (* after channel 2 *)
  assert (A2 : fds q2 !! STDOUT_FILENO = Some f2).
  { rewrite Eq2. apply (remap_channel_lookup_target cfg 2 p L f2); assumption. }
  assert (A2w1 : fds q2 !! w1 = Some f1).
  { rewrite Eq2, remap_channel_lookup_ne; unfold L, rd_end, wr_end, fds_table;
      simpl; auto; congruence. }
  assert (A2w0 : fds q2 !! w0 = Some f0).
  { rewrite Eq2, remap_channel_lookup_ne; unfold L, rd_end, wr_end, fds_table;
      simpl; auto; congruence. }
  (* after channel 1 *)
  assert (A1 : fds q1 !! STDERR_FILENO = Some f1).
  { rewrite Eq1.
    apply (remap_channel_lookup_target cfg 1 q2 [(r0, w0); (r1, w1); (r2, w2')] f1);
      assumption. }
  assert (A1out : fds q1 !! STDOUT_FILENO = Some f2).
  { rewrite Eq1, remap_channel_lookup_ne; unfold rd_end, wr_end, fds_table;
      simpl; auto; congruence. }
  assert (A1w0 : fds q1 !! w0 = Some f0).
  { rewrite Eq1, remap_channel_lookup_ne; unfold rd_end, wr_end, fds_table;
      simpl; auto; congruence. }
  (* after channel 0 *)
  repeat split.
  - apply (remap_channel_lookup_target cfg 0 q1 [(r0, w0); (r1, w1'); (r2, w2')] f0);
      assumption.
  - rewrite remap_channel_lookup_ne; unfold rd_end, wr_end, fds_table;
      simpl; auto; congruence.
  - rewrite remap_channel_lookup_ne; unfold rd_end, wr_end, fds_table;
      simpl; auto; congruence.
  - intros d Hd Hnot.
    assert (DEBUG_FILENO cfg <> d /\ STDERR_FILENO <> d /\ STDOUT_FILENO <> d)
      as (? & ? & ?) by (repeat split; intros E; clear - Hnot E; tauto).
    apply remap_channel_closed; [assumption|].
    destruct Hd as [<- | [<- | Hd]]; [right; left; reflexivity
                                     | right; right; reflexivity |].
    left. rewrite Eq1. apply remap_channel_closed; [assumption|].
    destruct Hd as [<- | [<- | Hd]]; [right; left; reflexivity
                                     | right; right; reflexivity |].
    left. rewrite Eq2. apply remap_channel_closed; [assumption|].
    destruct Hd as [<- | [<- | []]]; [right; left; reflexivity
                                     | right; right; reflexivity].
Qed.

(** X6.  The condition on the output number is needed: when a descriptor of
    the debug or error pipe is the output number (a launcher started with
    its standard output closed gets such pipes), the child ends its loop
    with no standard output at all. *)
Theorem remap_loses_stdout (p : process) (r0 w0 r1 w1 r2 w2 : Z) :
  In STDOUT_FILENO [r0; w0; r1; w1] ->
  DEBUG_FILENO cfg <> STDOUT_FILENO ->
  fds (fst (remap_channels cfg (p, [(r0, w0); (r1, w1); (r2, w2)])))
    !! STDOUT_FILENO = None.
Proof.
  intros Hin Hdbg. unfold remap_channels. cbn [fold_left].
  destruct (remap_channel cfg 2 (p, _)) as [q2 pipes2] eqn:E2.
  destruct (remap_channel_2_pipes p r0 w0 r1 w1 r2 w2) as [w2' Hp2].
  rewrite E2 in Hp2. simpl in Hp2. subst pipes2.
  destruct (remap_channel cfg 1 (q2, _)) as [q1 pipes1] eqn:E1.
  destruct (remap_channel_1_pipes q2 r0 w0 r1 w1 r2 w2') as [w1' Hp1].
  rewrite E1 in Hp1. simpl in Hp1. subst pipes1.
  assert (Eq1 : q1 = fst (remap_channel cfg 1 (q2, [(r0, w0); (r1, w1); (r2, w2')])))
    by now rewrite E1.
  apply remap_channel_closed; [exact Hdbg|].
  simpl in Hin. destruct Hin as [<- | [<- | Hin]];
    [right; left; reflexivity | right; right; reflexivity |].
  left. rewrite Eq1. apply remap_channel_closed; [discriminate|].
  destruct Hin as [<- | [<- | []]]; [right; left; reflexivity
                                    | right; right; reflexivity].
Qed.

Lemma string_length_append (s t : string) :
  String.length (s +:+ t) = (String.length s + String.length t)%nat.
Proof. induction s as [|x s IH]; simpl; [reflexivity | now rewrite IH]. Qed.

(** X7.  No string stored in [libpath] or [bigbuf] outgrows the buffer: the
    target path copied at line 302, the colocated path built at line 310,
    the installed path of lines 312 and 315, the result with [EXTRAINFO]
    appended at line 318, each with its terminator, fit the
    [len + strlen (LIBDIR "/" LT_OBJDIR SONAME EXTRAINFO) + 1] bytes of line
    301, and the merged value of line 325 fills its buffer exactly. *)
Theorem libpath_fits_its_buffer (readable : string -> bool) (target : string) :
  let size := libpath_size cfg target in
  (String.length target < size)%nat /\
  (forall tmp, strrchr target "/" = Some tmp ->
     (String.length (strcpy_at target (S tmp) (LT_OBJDIR cfg +:+ SONAME cfg)) < size)%nat) /\
  (String.length (LIBDIR cfg +:+ "/" +:+ SONAME cfg) < size)%nat /\
  (String.length (resolve_libpath cfg readable target +:+ EXTRAINFO (host cfg)) < size)%nat /\
  (forall c tmp libpath,
     S (String.length (merge_preload (Some (String c tmp)) libpath))
     = bigbuf_size (String c tmp) libpath).
Proof.
  intros size.
  assert (Hcol : forall tmp, strrchr target "/" = Some tmp ->
            (String.length (strcpy_at target (S tmp) (LT_OBJDIR cfg +:+ SONAME cfg))
             <= String.length target + String.length (LT_OBJDIR cfg)
                + String.length (SONAME cfg))%nat).
  { intros tmp Htmp.
    destruct (strrchr_Some _ _ _ Htmp) as (pre & post & Ht & _ & Hsub).
    unfold strcpy_at. rewrite Hsub, Ht.
    repeat (rewrite string_length_append; cbn [String.length]). lia. }
  assert (Hsize : size = (String.length target + String.length (LIBDIR cfg) + 1
                          + String.length (LT_OBJDIR cfg) + String.length (SONAME cfg)
                          + String.length (EXTRAINFO (host cfg)) + 1)%nat).
  { unfold size, libpath_size. rewrite !string_length_append. simpl. lia. }
  assert (Hinst : String.length (LIBDIR cfg +:+ "/" +:+ SONAME cfg)
                  = (String.length (LIBDIR cfg) + 1 + String.length (SONAME cfg))%nat).
  { rewrite !string_length_append. simpl. lia. }
  clearbody size.
  repeat split.
  - lia.
  - intros tmp Htmp. specialize (Hcol tmp Htmp). lia.
  - lia.
  - rewrite string_length_append. unfold resolve_libpath.
    destruct (strrchr target "/") as [tmp|] eqn:E.
    + specialize (Hcol tmp eq_refl). destruct (readable _); lia.
    + lia.
  - intros c tmp libpath. unfold merge_preload, bigbuf_size.
    rewrite !string_length_append. simpl. lia.
Qed.

End ForkMore.

Lemma parent_keeps_read_ends_witness :
  map (fun d => fds (final_process
                       (myfork cfg0
                          {| pipe_results := pipe_results0; fork_result := 1234;
                             access_R_OK := fun _ => false; execvp_ok := true |}
                          child0 (opts0 OPMODE_PRELOAD) process0)) !! d)
      [3; 5; 7; 4]
  = [Some (pipe_read 0); Some (pipe_read 1); Some (pipe_read 2); None].
Proof.
  destruct (parent_keeps_read_ends cfg0
              {| pipe_results := pipe_results0; fork_result := 1234;
                 access_R_OK := fun _ => false; execvp_ok := true |}
              child0 (opts0 OPMODE_PRELOAD) process0 3 4 5 6 7 8 [] eq_refl)
    as (H3 & H5 & H7 & H4 & _).
  - simpl. lia.
  - repeat constructor; rewrite list_elem_of_In; simpl; lia.
  - cbn [map]. rewrite H3, H5, H7, H4. reflexivity.
Defined.

Lemma launcher_environment_kept_witness :
  env (final_process (myfork cfg0 sys_fork_fails child0 (opts0 OPMODE_PRELOAD) process0))
  = env process0.
Proof.
  apply (launcher_environment_kept cfg0 sys_fork_fails child0 (opts0 OPMODE_PRELOAD)
           process0).
  - simpl. lia.
  - left. simpl. discriminate.
Defined.


Lemma remap_puts_all_channels_witness :
  let p' := fst (remap_channels cfg0
                   (open_pipe 2 7 8 (open_pipe 1 5 6 (open_pipe 0 3 4 process0)),
                    [(3, 4); (5, 6); (7, 8)])) in
  fds p' !! 3 = Some (pipe_write 0) /\ fds p' !! 2 = Some (pipe_write 1) /\
  fds p' !! 1 = Some (pipe_write 2).
Proof.
  destruct (remap_puts_all_channels cfg0
              (open_pipe 2 7 8 (open_pipe 1 5 6 (open_pipe 0 3 4 process0)))
              3 4 5 6 7 8 (pipe_write 0) (pipe_write 1) (pipe_write 2))
    as (H0 & H1 & H2 & _).
  - repeat constructor; rewrite list_elem_of_In; simpl; lia.
  - repeat constructor; rewrite list_elem_of_In; simpl;
      unfold STDOUT_FILENO, STDERR_FILENO; lia.
  - simpl. unfold STDOUT_FILENO. lia.
  - simpl. unfold STDERR_FILENO. lia.
  - reflexivity.
  - reflexivity.
  - reflexivity.
  - exact (conj H0 (conj H1 H2)).
Defined.

(** A launcher whose standard output was closed gets 1 as the read end of
    its first pipe. *)
Lemma remap_loses_stdout_witness :
  fds (fst (remap_channels cfg0
              (open_pipe 2 6 7 (open_pipe 1 4 5 (open_pipe 0 1 3
                 {| fds := <[2 := inherited 2]> (<[0 := inherited 0]> ∅);
                    env := ∅; rlimit_mem := None; rlimit_cpu := None; trace := [] |})),
               [(1, 3); (4, 5); (6, 7)])))
    !! STDOUT_FILENO = None.
Proof.
  apply (remap_loses_stdout cfg0).
  - simpl. left. reflexivity.
  - simpl. unfold STDOUT_FILENO. lia.
Defined.

(** ** The replacement [setenv] *)

Lemma split_at_equals_name (name rest : string) :
  has_char "=" name = false ->
  split_at_equals (name +:+ String "=" rest) = Some (name, rest).
Proof.
  induction name as [|x name IH]; simpl; intros H; [reflexivity|].
  apply orb_false_iff in H as [Hx Hname].
  rewrite Hx. now rewrite (IH Hname).
Qed.

(** X8.  For a name without ['='] the replacement [setenv] does what
    [setenv] does: with [overwrite] it sets the variable, without it sets
    the variable only when it has no value yet; the string it hands to
    [putenv] fills its [strlen (name) + 1 + strlen (value) + 1] bytes.  A
    name with an ['='] inside sets another variable instead, the one called
    by what precedes the ['=']. *)
Theorem setenv_fallback_agrees (name value : string) (e : gmap string string) :
  has_char "=" name = false ->
  setenv_fallback name value true e = setenv name value e /\
  setenv_fallback name value false e
  = (match e !! name with Some _ => e | None => setenv name value e end) /\
  S (String.length (name +:+ "=" +:+ value))
  = (String.length name + 1 + String.length value + 1)%nat /\
  (forall tail,
     setenv_fallback (name +:+ "=" +:+ tail) value true e
     = setenv name (tail +:+ "=" +:+ value) e).
Proof.
  intros Hname. unfold setenv_fallback, putenv, setenv, getenv.
  cbn [negb andb String.append].
  repeat split.
  - now rewrite split_at_equals_name.
  - destruct (e !! name) as [v|] eqn:E.
    + rewrite bool_decide_eq_true_2 by eauto. reflexivity.
    + rewrite bool_decide_eq_false_2 by (intros [v Hv]; discriminate).
      now rewrite split_at_equals_name.
  - rewrite !string_length_append. simpl. lia.
  - intros tail. rewrite append_assoc. cbn [String.append].
    now rewrite split_at_equals_name.
Qed.

(** Every name that [run_process] passes has no ['='], so a build with
    the replacement sets the same variables. *)
Lemma setenv_fallback_agrees_witness :
  Forall (fun name =>
            setenv_fallback name "1" true ∅ = setenv name "1" (∅ : gmap string string))
    setenv_names.
Proof.
  unfold setenv_names, harness_variables. simpl.
  repeat match goal with
         | |- Forall _ (_ :: _) => constructor
         | |- Forall _ [] => constructor
         | |- setenv_fallback ?name _ _ _ = _ =>
             exact (proj1 (setenv_fallback_agrees name "1" ∅ eq_refl))
         end.
Defined.

(** ** The Windows path: how a launch ends *)

(** X9.  A launch on the Windows path that starts without a target ends in
    one of three ways.  [CreateProcess] failed: the launcher returns -1
    after this one call and there is no target.  The injection or the final
    [ResumeThread] failed: the launcher returns -1 and its last call is the
    [TerminateProcess] of line 396 or 405, which leaves no target unless it
    fails itself.  Otherwise the last call is the successful [ResumeThread]
    of line 402 after an injection that returned 0, the target lives, and
    the child structure holds the identifier and the handle of the new
    process. *)
Theorem windows_launch_outcomes (cfg : config) (a : arch) (c : child) (o : opts)
  (pipes : list (Z * Z)) (w : world) (r : Z) :
  let res := run_process_win cfg a c o pipes w in
  let w' := snd res in
  let c' := snd (fst res) in
  w_alive w = false ->
  fst (fst res) = Ok r ->
  (r = -1 /\ w_alive w' = false /\ w_child_env w' = w_child_env w /\
   exists create,
     new_events w w' = [{| ev_line := 372; ev_api := create; ev_ok := false |}])
  \/ (r = -1 /\
      exists line ok rest,
        new_events w w'
        = {| ev_line := line; ev_api := TerminateProcess; ev_ok := ok |} :: rest /\
        (line = 396 \/ line = 405)%nat /\
        w_alive w' = negb ok)
  \/ ((exists rest,
         new_events w w'
         = {| ev_line := 402; ev_api := ResumeThread; ev_ok := true |} :: rest) /\
      fst (dll_inject a (SONAME cfg) (snd (create_process c o pipes w))) = Ok 0 /\
      w_alive w' = true /\
      pid c' = dwProcessId (w_pinfo w) /\
      process_handle c' = hProcess (w_pinfo w)).
Proof.
  intros res w' c' Halive. unfold w', c', res, run_process_win. clear res w' c'.
  unfold create_process. cbv zeta.
  match goal with |- context [fails ?x] => destruct (fails x) eqn:Ecreate end.
  - (* CreateProcess fails *)
    cbn [fst snd]. intros [= <-]. left.
    split; [reflexivity|]. split; [exact Halive|]. split; [reflexivity|].
    eexists. apply new_events_app. reflexivity.
  - (* the target exists *)
    cbn [fst snd].
    match goal with
    | |- context [dll_inject _ _ ?x] => set (w1 := x)
    end.
    clear Ecreate.
    assert (Hlog1 : exists e0, w_log w1 = [e0] ++ w_log w) by (eexists; reflexivity).
    assert (Halive1 : w_alive w1 = true) by reflexivity.
    clearbody w1. destruct Hlog1 as [e0 Hlog1].
    destruct (dll_inject_frame w1 a (SONAME cfg))
      as ((evs & Hlog2 & _) & _ & _ & _ & _ & Halive2).
    destruct (dll_inject a (SONAME cfg) w1) as [[ret| |] w2] eqn:Einj;
      cbn [fst snd] in *; try discriminate.
    destruct (dll_inject_result _ _ _ _ _ Einj) as [-> | ->];
      cbn [Z.ltb Z.compare].
    + destruct (fails w2) eqn:Eresume; cbn [fst snd]; intros [= <-].
      * right. left. split; [reflexivity|].
        unfold TerminateProcess_at.
        match goal with |- context [fails ?x] => destruct (fails x) end;
          erewrite (new_events_app w _ (_ :: _ :: evs ++ [e0]))
            by (simpl; rewrite Hlog2, Hlog1, <- app_assoc; reflexivity);
          do 3 eexists; (split; [reflexivity|]);
          (split; [right; reflexivity|]); simpl; congruence.
      * right. right. split.
        { erewrite (new_events_app w _ (_ :: evs ++ [e0]))
            by (simpl; rewrite Hlog2, Hlog1, <- app_assoc; reflexivity).
          eexists. reflexivity. }
        repeat split. simpl. congruence.
    + cbn [fst snd]. intros [= <-]. right. left. split; [reflexivity|].
      unfold TerminateProcess_at.
      match goal with |- context [fails ?x] => destruct (fails x) end;
        erewrite (new_events_app w _ (_ :: evs ++ [e0]))
          by (simpl; rewrite Hlog2, Hlog1, <- app_assoc; reflexivity);
        do 3 eexists; (split; [reflexivity|]);
        (split; [left; reflexivity|]); simpl; congruence.
Qed.

Lemma windows_launch_outcomes_witness :
  let pipes := [(3, 4); (5, 6); (7, 8)] in
  let w := world0 None in
  let res := run_process_win cfg0 M_IX86 child0 (opts0 OPMODE_PRELOAD) pipes w in
  w_alive (snd res) = true /\ pid (snd (fst res)) = 1000.
Proof.
  intros pipes w res.
  assert (Hres : fst (fst res) = Ok 0x44) by (vm_compute; reflexivity).
  destruct (windows_launch_outcomes cfg0 M_IX86 child0 (opts0 OPMODE_PRELOAD) pipes w
              0x44 eq_refl Hres) as [(H & _) | [(H & _) | (_ & _ & H & Hp & _)]].
  - discriminate H.
  - discriminate H.
  - exact (conj H Hp).
Defined.

(** ** The injection: no call after a failed one *)


Section StopProofs.

Context (w0 : world).






End StopProofs.


(** ** The injection: what a success leaves in the target *)

Lemma bind_Ok {A B} (m : M A) (k : A -> M B) (w w' : world) (y : B) :
  bind m k w = (Ok y, w') ->
  exists x w1, m w = (Ok x, w1) /\ k x w1 = (Ok y, w').
Proof.
  unfold bind. destruct (m w) as [[x| |] w1]; intros H; try discriminate. eauto.
Qed.

(** What a successful call leaves of the target. *)
Lemma call_Ok {A} (line : nat) (a : api) (x y : A) (effect : world -> world)
  (w w' : world) :
  call line a x effect w = (Ok y, w') ->
  y = x /\ w_mem w' = w_mem (effect w) /\ w_ctx w' = w_ctx (effect w) /\
  w_alloc w' = w_alloc (effect w) /\ w_modules w' = w_modules (effect w) /\
  w_polls w' = w_polls (effect w).
Proof. unfold call. destruct (fails w); intros [= <- <-]. repeat split. Qed.

Lemma nth_read_bytes (mem : Z -> Z) (addr : Z) (n i : nat) :
  (i < n)%nat -> nth i (read_bytes mem addr n) 0 = mem (addr + Z.of_nat i).
Proof.
  intros Hi. unfold read_bytes.
  set (f := fun i : nat => mem (addr + Z.of_nat i)).
  rewrite nth_indep with (d' := f 0%nat) by (rewrite length_map, length_seq; lia).
  rewrite map_nth, seq_nth by lia. reflexivity.
Qed.

Lemma read_bytes_ext (m1 m2 : Z -> Z) (addr : Z) (n : nat) :
  (forall x, addr <= x < addr + Z.of_nat n -> m1 x = m2 x) ->
  read_bytes m1 addr n = read_bytes m2 addr n.
Proof.
  intros H. unfold read_bytes. apply map_ext_in. intros i Hi.
  apply in_seq in Hi. apply H. lia.
Qed.

(** Reading back what was just written, and reading beside a write. *)
Lemma read_bytes_write_same (mem : Z -> Z) (addr : Z) (data : list Z) :
  read_bytes (write_bytes mem addr data) addr (length data) = data.
Proof.
  apply nth_ext with (d := 0) (d' := 0).
  - apply read_bytes_length.
  - rewrite read_bytes_length. intros i Hi. rewrite nth_read_bytes by exact Hi.
    unfold write_bytes.
    destruct (Z.leb_spec addr (addr + Z.of_nat i)); [|lia].
    destruct (Z.ltb_spec (addr + Z.of_nat i) (addr + Z.of_nat (length data))); [|lia].
    cbn [andb]. f_equal. lia.
Qed.

Lemma read_bytes_write_other (mem : Z -> Z) (addr : Z) (data : list Z)
  (from : Z) (n : nat) :
  disjoint from (Z.of_nat n) addr (Z.of_nat (length data)) ->
  read_bytes (write_bytes mem addr data) from n = read_bytes mem from n.
Proof.
  intros Hd. apply read_bytes_ext. intros x Hx. unfold write_bytes, disjoint in *.
  destruct (Z.leb_spec addr x); [|reflexivity].
  destruct (Z.ltb_spec x (addr + Z.of_nat (length data))); [|reflexivity].
  lia.
Qed.

Lemma le_value_le_bytes (n : nat) (v : Z) :
  le_value (le_bytes n v) = v mod 256 ^ Z.of_nat n.
Proof.
  revert v. induction n as [|n IH]; intros v.
  - simpl. now rewrite Z.mod_1_r.
  - cbn [le_bytes le_value]. rewrite IH, Z.mod_mod by lia.
    rewrite Nat2Z.inj_succ, Z.pow_succ_r by lia.
    rewrite Z.rem_mul_r by lia. reflexivity.
Qed.

Lemma le_bytes_length (n : nat) (v : Z) : length (le_bytes n v) = n.
Proof. revert v. induction n as [|n IH]; intros v; simpl; [|rewrite IH]; reflexivity. Qed.

Lemma wait_for_entry_Ok (oep : Z) (polls : list CONTEXT) (ctxt c : CONTEXT)
  (w w1 : world) :
  wait_for_entry oep ctxt polls w = (Ok c, w1) ->
  InstructionPointer c = oep /\ (c = ctxt \/ In c polls) /\
  w_mem w1 = w_mem w /\ w_alloc w1 = w_alloc w /\ w_modules w1 = w_modules w.
Proof.
  revert ctxt w. induction polls as [|p polls IH]; intros ctxt w; simpl.
  - destruct (Z.eqb_spec oep (InstructionPointer ctxt)); [|discriminate].
    intros [= <- <-]. auto.
  - destruct (Z.eqb_spec oep (InstructionPointer ctxt)).
    + intros [= <- <-]. auto.
    + intros H.
      apply bind_Ok in H as (? & w2 & H1 & H).
      apply call_Ok in H1 as (_ & Hm2 & _ & Ha2 & Hmo2 & _).
      apply bind_Ok in H as (? & w3 & H1 & H). injection H1 as _ <-.
      apply IH in H as (Hip & Hin & Hmem & Halloc & Hmod).
      cbn in Hmem, Halloc, Hmod, Hm2, Ha2, Hmo2.
      split; [exact Hip|]. split; [|split; [|split]]; try congruence.
      right. destruct Hin as [-> | Hin]; [now left | now right].
Qed.

Lemma resolve_LoadLibraryA_Ok (a : arch) (w w' : world) (rldlib : Z) :
  resolve_LoadLibraryA a w = (Ok rldlib, w') ->
  rldlib = get_proc_address a (w_mem w) (w_modules w) "LoadLibraryA" /\
  rldlib <> 0 /\
  w_mem w' = w_mem w /\ w_alloc w' = w_alloc w.
Proof.
  unfold resolve_LoadLibraryA. cbv zeta.
  destruct (fails w); cbn [negb get_proc_address Z.eqb]; [discriminate|].
  destruct (Z.eqb_spec (get_proc_address a (w_mem w) (w_modules w) "LoadLibraryA") 0);
    [discriminate|].
  intros [= <- <-]. auto.
Qed.

Lemma VirtualAllocEx_at_Ok (line : nat) (len rpl : Z) (w w' : world) :
  VirtualAllocEx_at line len w = (Ok rpl, w') ->
  rpl = w_alloc w /\ rpl <> 0 /\ w_mem w' = w_mem w /\ w_ctx w' = w_ctx w.
Proof.
  unfold VirtualAllocEx_at. destruct (Z.eqb_spec (w_alloc w) 0); [discriminate|].
  intros H. apply call_Ok in H as (-> & Hm & Hc & _). auto.
Qed.

(** One call of the body: the value it gives and the memory and the
    context it leaves. *)
Ltac inject_step H x w1 Hm Hc :=
  let H1 := fresh "H" in
  let Ha := fresh "Ha" in
  let Hmo := fresh "Hmo" in
  let Hp := fresh "Hp" in
  apply bind_Ok in H as (x & w1 & H1 & H);
  unfold GetThreadContext_at, ReadProcessMemory_at, WriteProcessMemory_at,
    FlushInstructionCache_at, ResumeThread_at, SuspendThread_at,
    SetThreadContext_at, malloc_at in H1; cbv beta zeta in H1;
  apply call_Ok in H1 as (-> & Hm & Hc & Ha & Hmo & Hp);
  cbn [id set_mem set_ctx w_mem w_ctx w_alloc w_modules w_polls] in Hm, Hc, Ha, Hmo, Hp.

Lemma dll_inject_body_Ok (a : arch) (lib : string) (w w' : world) (u : unit) :
  dll_inject_body a lib w = (Ok u, w') ->
  exists entry rldlib,
    let oep := LoaderRegister (w_ctx w) in
    let sp := wrap_ptr a (StackPointer entry - ptr_size a) in
    let mem1 := write_bytes (w_mem w) oep wait in
    InstructionPointer entry = oep /\
    (entry = w_ctx w \/ In entry (w_polls w)) /\
    rldlib = get_proc_address a mem1 (w_modules w) "LoadLibraryA" /\
    rldlib <> 0 /\
    w_alloc w <> 0 /\
    w_ctx w' = with_ip (w_alloc w) (with_sp sp entry) /\
    w_mem w'
    = write_bytes
        (write_bytes
           (write_bytes mem1 sp (le_bytes (Z.to_nat (ptr_size a)) oep))
           (w_alloc w) (forge_payload a rldlib lib))
        oep (read_bytes (w_mem w) oep 2).
Proof.
  unfold dll_inject_body. cbv zeta. intros H.
  inject_step H ctxt w1 Hm1 Hc1.
  inject_step H orig w2 Hm2 Hc2. rewrite Hm1 in Hm2, H.
  inject_step H x3 w3 Hm3 Hc3. rewrite Hm2 in Hm3.
  inject_step H x4 w4 Hm4 Hc4. rewrite Hm3 in Hm4.
  inject_step H x5 w5 Hm5 Hc5. rewrite Hm4 in Hm5.
  apply bind_Ok in H as (entry & w6 & H1 & H).
  apply wait_for_entry_Ok in H1 as (Hip & Hin & Hm6 & Ha6 & Hmo6).
  rewrite Hm5 in Hm6.
  replace (w_polls w5) with (w_polls w) in Hin by congruence.
  inject_step H x7 w7 Hm7 Hc7. rewrite Hm6 in Hm7.
  apply bind_Ok in H as (rldlib & w8 & H1 & H).
  apply resolve_LoadLibraryA_Ok in H1 as (Hrld & Hrld0 & Hm8 & Ha8).
  rewrite Hm7 in Hrld, Hm8.
  apply bind_Ok in H as (rpl & w9 & H1 & H).
  apply VirtualAllocEx_at_Ok in H1 as (Hrpl & Hrpl0 & Hm9 & _).
  rewrite Hm8 in Hm9.
  inject_step H x10 w10 Hm10 Hc10. rewrite Hm9 in Hm10.
  inject_step H x11 w11 Hm11 Hc11. rewrite Hm10 in Hm11.
  inject_step H x12 w12 Hm12 Hc12. rewrite Hm11 in Hm12. rewrite Hc11 in Hc12.
  inject_step H x13 w13 Hm13 Hc13. rewrite Hm12 in Hm13. rewrite Hc12 in Hc13.
  inject_step H x14 w14 Hm14 Hc14. rewrite Hm13 in Hm14. rewrite Hc13 in Hc14.
  inject_step H x15 w15 Hm15 Hc15. rewrite Hm14 in Hm15. rewrite Hc14 in Hc15.
  inject_step H x16 w16 Hm16 Hc16. rewrite Hm15 in Hm16. rewrite Hc15 in Hc16.
  unfold ret in H. injection H as _ <-.
  exists entry, rldlib. cbv zeta.
  assert (Hmod : w_modules w7 = w_modules w) by congruence.
  assert (Halloc : rpl = w_alloc w) by congruence.
  rewrite Hmod in Hrld. rewrite Halloc in *.
  repeat split; auto.
Qed.

Lemma forge_payload_length (a : arch) (rldlib : Z) (lib : string) :
  length (forge_payload a rldlib lib) = Z.to_nat (pl_len a lib).
Proof.
  unfold forge_payload, pl_len, memcpy_at.
  rewrite !length_app, length_take, length_drop, le_bytes_length,
    bytes_of_string_length.
  destruct a; simpl; lia.
Qed.

(** X11.  What a successful injection leaves in the target, when the
    payload block, the stack slot and the two bytes at the entry point do
    not overlap.  The main thread is set to run the payload block that
    [VirtualAllocEx] gave; its stack pointer is one pointer below the one
    it had when it reached the entry point, and the slot there holds the
    address of the entry point, to which the payload's [ret] returns; the
    block holds the loader code with the address of [LoadLibraryA] as
    resolved in the target, followed by the library name; the entry point
    has its two bytes back. *)
Theorem injection_success_state (a : arch) (lib : string) (w : world) :
  let w' := snd (dll_inject a lib w) in
  let oep := LoaderRegister (w_ctx w) in
  let rpl := w_alloc w in
  let sp := StackPointer (w_ctx w') in
  fst (dll_inject a lib w) = Ok 0 ->
  disjoint rpl (pl_len a lib) oep 2 ->
  disjoint sp (ptr_size a) rpl (pl_len a lib) ->
  disjoint sp (ptr_size a) oep 2 ->
  rpl <> 0 /\
  InstructionPointer (w_ctx w') = rpl /\
  (exists entry,
     InstructionPointer entry = oep /\
     (entry = w_ctx w \/ In entry (w_polls w)) /\
     sp = wrap_ptr a (StackPointer entry - ptr_size a)) /\
  le_value (read_bytes (w_mem w') sp (Z.to_nat (ptr_size a))) = wrap_ptr a oep /\
  (exists rldlib,
     rldlib <> 0 /\
     rldlib = get_proc_address a (write_bytes (w_mem w) oep wait) (w_modules w)
                "LoadLibraryA" /\
     read_bytes (w_mem w') rpl (Z.to_nat (pl_len a lib)) = forge_payload a rldlib lib) /\
  read_bytes (w_mem w') oep 2 = read_bytes (w_mem w) oep 2.
Proof.
  intros w' oep rpl sp. subst w' sp. unfold dll_inject.
  destruct (dll_inject_body a lib w) as [[u| |] w'] eqn:E; cbn [fst snd];
    try discriminate.
  intros _.
  destruct (dll_inject_body_Ok _ _ _ _ _ E)
    as (entry & rldlib & Hip & Hin & Hrld & Hrld0 & Hrpl & Hctx & Hmem).
  cbv zeta in *. fold oep rpl in Hip, Hin, Hrld, Hrpl, Hctx, Hmem |- *.
  rewrite Hctx, Hmem. cbn [with_ip with_sp InstructionPointer StackPointer].
  set (sp := wrap_ptr a (StackPointer entry - ptr_size a)).
  intros Hpo Hsp Hso.
  assert (Hptr : Z.of_nat (Z.to_nat (ptr_size a)) = ptr_size a) by (destruct a; reflexivity).
  assert (Hlen : Z.of_nat (Z.to_nat (pl_len a lib)) = pl_len a lib)
    by (unfold pl_len; lia).
  split; [exact Hrpl|]. split; [reflexivity|].
  split; [exists entry; auto|].
  split; [|split].
  - rewrite read_bytes_write_other
      by (rewrite read_bytes_length, Hptr; exact Hso).
    rewrite read_bytes_write_other
      by (rewrite forge_payload_length, Hptr, Hlen; exact Hsp).
    rewrite <- (le_bytes_length (Z.to_nat (ptr_size a)) oep) at 2.
    rewrite read_bytes_write_same, le_value_le_bytes.
    unfold wrap_ptr. rewrite Hptr. f_equal.
    destruct a; reflexivity.
  - exists rldlib. split; [exact Hrld0|]. split; [exact Hrld|].
    rewrite read_bytes_write_other
      by (rewrite read_bytes_length, Hlen; exact Hpo).
    rewrite <- (forge_payload_length a rldlib lib).
    apply read_bytes_write_same.
  - rewrite <- (read_bytes_length (w_mem w) oep 2) at 2.
    apply read_bytes_write_same.
Qed.

Lemma injection_success_state_witness :
  let w' := snd (dll_inject M_IX86 "libzzuf.dll" (world0 None)) in
  InstructionPointer (w_ctx w') = 0x500000 /\
  le_value (read_bytes (w_mem w') 0x12FEFC 4) = 0x401000.
Proof.
  intros w'.
  assert (Hok : fst (dll_inject M_IX86 "libzzuf.dll" (world0 None)) = Ok 0)
    by (vm_compute; reflexivity).
  assert (Hsp : StackPointer (w_ctx w') = 0x12FEFC) by (vm_compute; reflexivity).
  destruct (injection_success_state M_IX86 "libzzuf.dll" (world0 None) Hok)
    as (_ & Hip & _ & Hret & _).
  - vm_compute. right. discriminate.
  - fold w'. rewrite Hsp. vm_compute. left. discriminate.
  - fold w'. rewrite Hsp. vm_compute. left. discriminate.
  - fold w' in Hip, Hret. rewrite Hsp in Hret. split; [exact Hip | exact Hret].
Defined.

(** ** The payload *)

(** X12.  The payload of lines 531-535, for every address and library
    name: it has the [pl_len] bytes that line 537 writes; the bytes that
    [memcpy] replaces at [LoadLibraryAOffset] are the placeholder of the
    loader code and nothing else, and they read back as the address; the
    rest of the loader code is as in [ldr]; the library name and its
    terminator follow the code, at offset 0x27 in the 64-bit build, which
    is where its [lea rcx] points, and at offset 22 in the 32-bit build. *)
Theorem payload_layout (a : arch) (rldlib : Z) (lib : string) :
  let pl := forge_payload a rldlib lib in
  let off := LoadLibraryAOffset a in
  let ptr := Z.to_nat (ptr_size a) in
  length pl = Z.to_nat (pl_len a lib) /\
  take ptr (drop off (ldr a)) = repeat 0x5F ptr /\
  le_value (take ptr (drop off pl)) = wrap_ptr a rldlib /\
  take off pl = take off (ldr a) /\
  take (length (ldr a) - off - ptr) (drop (off + ptr) pl) = drop (off + ptr) (ldr a) /\
  drop (length (ldr a)) pl = bytes_of_string lib ++ [0] /\
  length (ldr a) = match a with M_AMD64 => 0x27%nat | M_IX86 => 22%nat end.
Proof.
  intros pl off ptr. split; [apply forge_payload_length|].
  split; [destruct a; reflexivity|].
  assert (Hpl : pl = take off (ldr a) ++ le_bytes ptr rldlib
                     ++ drop (off + ptr) (ldr a) ++ bytes_of_string lib ++ [0]).
  { unfold pl, forge_payload, memcpy_at. rewrite le_bytes_length.
    now rewrite <- !app_assoc. }
  assert (Hoff : off = length (take off (ldr a))) by (destruct a; reflexivity).
  assert (Hrest : (length (ldr a) - off - ptr)%nat = length (drop (off + ptr) (ldr a)))
    by (destruct a; reflexivity).
  assert (Hptr : ptr = length (le_bytes ptr rldlib)) by (now rewrite le_bytes_length).
  split; [|split; [|split; [|split]]].
  - rewrite Hpl. rewrite (drop_app_length' _ _ off Hoff).
    rewrite (take_app_length' _ _ ptr Hptr).
    rewrite le_value_le_bytes. unfold wrap_ptr, ptr. f_equal.
    destruct a; reflexivity.
  - rewrite Hpl. now rewrite (take_app_length' _ _ off Hoff).
  - rewrite Hpl, app_assoc.
    rewrite (drop_app_length' _ _ (off + ptr)%nat)
      by (rewrite length_app, <- Hoff, <- Hptr; reflexivity).
    now rewrite (take_app_length' _ _ _ Hrest).
  - rewrite Hpl, !app_assoc, <- (app_assoc _ _ [0]).
    apply drop_app_length'.
    rewrite !length_app, <- Hoff, <- Hptr, <- Hrest. destruct a; reflexivity.
  - destruct a; reflexivity.
Qed.

(** ** The export resolver: the address it gives *)

Lemma strcmp_refl (l : list Z) : strcmp l l = 0.
Proof.
  induction l as [|x l IH]; simpl; [reflexivity|].
  rewrite Z.eqb_refl. now destruct (x =? 0).
Qed.

Section ResolverMore.

Context (a : arch) (mem : Z -> Z).

Lemma scan_names_first (func : string) (base expdir i : Z) (n : nat) (k0 : Z) :
  c_string func ->
  k0 <= i < k0 + Z.of_nat n ->
  (forall k, k0 <= k < i -> ~ c_string_at mem (name_address a mem base expdir k) func) ->
  c_string_at mem (name_address a mem base expdir i) func ->
  scan_names a mem n k0 base expdir func
  = Some (function_address a mem base expdir i).
Proof.
  intros Hc. revert k0. induction n as [|n IH]; intros k0 Hi Hbefore Hat; [lia|].
  cbn [scan_names].
  match goal with
  | |- context [strcmp ?b ?s =? 0] => destruct (Z.eqb_spec (strcmp b s) 0) as [E | E]
  end; cbn [negb].
  - destruct (Z.eq_dec k0 i) as [-> | Hne]; [reflexivity|].
    exfalso. apply (Hbefore k0); [lia|]. unfold c_string_at.
    apply strcmp_zero in E; auto using bytes_of_c_string.
    now rewrite read_bytes_length, bytes_of_string_length.
  - destruct (Z.eq_dec k0 i) as [-> | Hne].
    + exfalso. apply E. unfold c_string_at, name_address in Hat. rewrite Hat.
      apply strcmp_refl.
    + apply IH; [lia | | exact Hat]. intros k Hk. apply Hbefore. lia.
Qed.

(** X13.  When the first module called kernel32.dll has an export directory
    and [i] is the first index of its name table whose name is [func], the
    resolver gives the address that the ordinal of index [i] selects in the
    function table of that module, whatever modules come later. *)
Theorem resolver_first_match (before later : list MODULEENTRY32)
  (entry : MODULEENTRY32) (func : string) (expdir i : Z) :
  let base := modBaseAddr entry in
  Forall (fun m => c_string (szModule m) /\ named_kernel32 m = false) before ->
  c_string (szModule entry) ->
  named_kernel32 entry = true ->
  c_string func ->
  export_directory a mem base = Some expdir ->
  0 <= i < to_int32 (read_u32 mem (expdir + NumberOfNames_offset)) ->
  (forall k, 0 <= k < i -> ~ c_string_at mem (name_address a mem base expdir k) func) ->
  c_string_at mem (name_address a mem base expdir i) func ->
  get_proc_address a mem (before ++ entry :: later) func
  = function_address a mem base expdir i.
Proof.
  intros base Hbefore Hentry Hk32 Hfunc Hdir Hi Hfirst Hat.
  induction Hbefore as [|m before [Hm Hno] _ IH]; cbn [app get_proc_address].
  - rewrite (stricmp_kernel32 entry Hentry), Hk32. cbn [negb]. fold base.
    rewrite Hdir.
    rewrite (scan_names_first func base expdir i); auto.
    unfold names_count. lia.
  - rewrite (stricmp_kernel32 m Hm), Hno. cbn [negb]. exact IH.
Qed.

End ResolverMore.

Lemma resolver_first_match_witness :
  get_proc_address M_IX86 memory0 modules0 "LoadLibraryA"
  = function_address M_IX86 memory0 0x10000 0x10200 0.
Proof.
  apply (resolver_first_match M_IX86 memory0
           [{| szModule := "ntdll.dll"; modBaseAddr := 0x20000 |}] []
           {| szModule := "KERNEL32.DLL"; modBaseAddr := 0x10000 |}
           "LoadLibraryA" 0x10200 0).
  - repeat constructor.
  - reflexivity.
  - reflexivity.
  - reflexivity.
  - vm_compute. reflexivity.
  - vm_compute. split; [discriminate | reflexivity].
  - intros k Hk. lia.
  - vm_compute. reflexivity.
Defined.

(** ** The command line of the Windows path *)

Lemma args_size_nonneg (argv : list string) : 0 <= args_size argv.
Proof. induction argv as [|x argv IH]; simpl; lia. Qed.

Lemma fold_add_arg_len (argv : list string) (len : Z) :
  0 <= len -> len + args_size argv < 2 ^ 31 ->
  fold_left add_arg_len argv len = len + args_size argv.
Proof.
  revert len. induction argv as [|x argv IH]; intros len H0 H; simpl in *; [lia|].
  pose proof (args_size_nonneg argv).
  unfold add_arg_len at 2.
  rewrite (to_int32_small (Z.of_nat (String.length x))) by lia.
  rewrite to_int32_small by lia.
  rewrite IH by lia. lia.
Qed.

Lemma bytes_of_string_append (s t : string) :
  bytes_of_string (s +:+ t) = bytes_of_string s ++ bytes_of_string t.
Proof.
  unfold bytes_of_string. induction s as [|x s IH]; simpl; [reflexivity|].
  now rewrite IH.
Qed.

Lemma store_middle (pre tail : list Z) (old v : Z) :
  store (pre ++ old :: tail) (Z.of_nat (length pre)) v = Some (pre ++ v :: tail).
Proof.
  unfold store. rewrite length_app. cbn [length].
  destruct (Z.leb_spec 0 (Z.of_nat (length pre))); [|lia].
  destruct (Z.ltb_spec (Z.of_nat (length pre))
              (Z.of_nat (length pre + S (length tail)))); [|lia].
  cbn [andb]. rewrite Nat2Z.id. f_equal.
  rewrite insert_app_r_alt by lia. rewrite Nat.sub_diag. reflexivity.
Qed.

Lemma store_bytes_middle (data pre old tail : list Z) :
  length old = length data ->
  store_bytes (pre ++ old ++ tail) (Z.of_nat (length pre)) data
  = Some (pre ++ data ++ tail).
Proof.
  revert pre old. induction data as [|b data IH]; intros pre [|o old] Hlen;
    try discriminate; [reflexivity|].
  cbn [store_bytes app]. rewrite store_middle.
  replace (Z.of_nat (length pre) + 1) with (Z.of_nat (length (pre ++ [b])))
    by (rewrite length_app; simpl; lia).
  change (pre ++ b :: old ++ tail) with (pre ++ [b] ++ old ++ tail).
  rewrite app_assoc, IH by (simpl in Hlen; lia).
  now rewrite <- app_assoc.
Qed.

(** The bytes that the loop of lines 362-367 writes for [argv]. *)
Lemma fill_args_spec (argv : list string) (pre tail : list Z) :
  Z.of_nat (length pre) + args_size argv < 2 ^ 31 ->
  Z.of_nat (length tail) = args_size argv ->
  fill_args argv (Z.of_nat (length pre)) (pre ++ tail)
  = Some (Z.of_nat (length pre) + args_size argv,
          pre ++ concat (map (fun arg => bytes_of_string arg ++ [32]) argv)).
Proof.
  revert pre tail. induction argv as [|x argv IH]; intros pre tail Hsize Htail.
  - simpl in *. destruct tail; [|simpl in Htail; lia].
    now rewrite Z.add_0_r.
  - cbn [fill_args map concat args_size fold_right] in *.
    fold (args_size argv) in *.
    pose proof (args_size_nonneg argv) as Hnn.
    set (n := String.length x) in *.
    assert (Hsplit : exists old o tail',
               tail = old ++ o :: tail' /\ length old = n /\
               Z.of_nat (length tail') = args_size argv).
    { assert (Hn : (n < length tail)%nat) by lia.
      destruct (lookup_lt_is_Some_2 tail n Hn) as [o Ho].
      exists (take n tail), o, (drop (S n) tail).
      split; [|split].
      - symmetry. now apply take_drop_middle.
      - rewrite length_take. lia.
      - rewrite length_drop. lia. }
    destruct Hsplit as (old & o & tail' & -> & Hold & Htail').
    unfold strcpy_to.
    replace (old ++ o :: tail') with ((old ++ [o]) ++ tail')
      by (now rewrite <- app_assoc).
    rewrite store_bytes_middle
      by (rewrite !length_app, bytes_of_string_length; simpl; lia).
    unfold add_arg_len. fold n.
    rewrite (to_int32_small (Z.of_nat n)) by lia.
    rewrite to_int32_small by lia.
    replace (Z.of_nat (length pre) + (Z.of_nat n + 1) - 1)
      with (Z.of_nat (length (pre ++ bytes_of_string x)))
      by (rewrite length_app, bytes_of_string_length; fold n; lia).
    replace (pre ++ (bytes_of_string x ++ [0]) ++ tail')
      with ((pre ++ bytes_of_string x) ++ 0 :: tail')
      by (now rewrite <- !app_assoc).
    rewrite store_middle.
    replace (Z.of_nat (length pre) + (Z.of_nat n + 1))
      with (Z.of_nat (length (pre ++ bytes_of_string x ++ [32])))
      by (rewrite !length_app, bytes_of_string_length; fold n; simpl; lia).
    replace ((pre ++ bytes_of_string x) ++ 32 :: tail')
      with ((pre ++ bytes_of_string x ++ [32]) ++ tail')
      by (now rewrite <- !app_assoc).
    rewrite IH.
    + f_equal. f_equal.
      * rewrite !length_app, bytes_of_string_length. fold n. simpl. lia.
      * now rewrite <- !app_assoc.
    + rewrite !length_app, bytes_of_string_length. fold n. simpl. lia.
    + exact Htail'.
Qed.

Lemma concat_cons (x y : string) (rest : list string) :
  String.concat " " (x :: y :: rest) = x +:+ " " +:+ String.concat " " (y :: rest).
Proof. reflexivity. Qed.

Lemma joined_bytes (x : string) (argv : list string) :
  concat (map (fun arg => bytes_of_string arg ++ [32]) (x :: argv))
  = bytes_of_string (build_cmdline (x :: argv)) ++ [32].
Proof.
  unfold build_cmdline. revert x. induction argv as [|y argv IH]; intros x.
  - simpl. now rewrite app_nil_r.
  - rewrite concat_cons, !bytes_of_string_append.
    cbn [map concat] in *. rewrite IH. now rewrite <- !app_assoc.
Qed.

Lemma joined_length (argv : list string) :
  Z.of_nat (length (concat (map (fun arg => bytes_of_string arg ++ [32]) argv)))
  = args_size argv.
Proof.
  induction argv as [|x argv IH]; [reflexivity|].
  cbn [map concat args_size fold_right]. fold (args_size argv).
  rewrite !length_app, bytes_of_string_length. simpl length. lia.
Qed.

(** X14.  The buffer of lines 358-368.  For at least one argument, with
    sizes that fit an [int], every store of the two loops and of line 368
    falls inside the [len] bytes of line 361, and the buffer ends up holding
    the arguments separated by single spaces and a terminator in place of
    the last space, whatever it held before.  For no argument the store of
    line 368 is at index -1, outside the buffer. *)
Theorem cmdline_buffer_filled (argv : list string) (cmdline : list Z) :
  args_size argv < 2 ^ 31 ->
  Z.of_nat (length cmdline) = cmdline_len argv ->
  cmdline_len argv = args_size argv /\
  fill_cmdline argv cmdline
  = match argv with
    | [] => None
    | _ :: _ => Some (bytes_of_string (build_cmdline argv) ++ [0])
    end.
Proof.
  intros Hsize Hlen.
  assert (Hfold : cmdline_len argv = args_size argv)
    by (unfold cmdline_len; rewrite fold_add_arg_len; lia).
  split; [exact Hfold|]. unfold fill_cmdline. cbv zeta.
  rewrite Hfold in *.
  pose proof (fill_args_spec argv [] cmdline Hsize Hlen) as H.
  cbn [app length] in H. change (Z.of_nat 0) with 0 in H. rewrite H. clear H.
  destruct argv as [|x argv]; [reflexivity|].
  rewrite joined_bytes.
  replace (args_size (x :: argv) - 1)
    with (Z.of_nat (length (bytes_of_string (build_cmdline (x :: argv))))).
  - apply store_middle.
  - pose proof (joined_length (x :: argv)) as Hj.
    rewrite joined_bytes, length_app in Hj. simpl length in Hj. lia.
Qed.

Lemma cmdline_buffer_filled_witness :
  fill_cmdline ["./dir/target"; "-x"] (repeat 0xCD 16)
  = Some (bytes_of_string "./dir/target -x" ++ [0]).
Proof.
  apply (cmdline_buffer_filled ["./dir/target"; "-x"] (repeat 0xCD 16)).
  - reflexivity.
  - reflexivity.
Defined.

Lemma concat_cons_nonempty (x : string) (l : list string) :
  l <> [] -> String.concat " " (x :: l) = x +:+ " " +:+ String.concat " " l.
Proof. destruct l; [contradiction | reflexivity]. Qed.

(** X15.  The command line neither quotes nor escapes: an argument that
    holds a space gives the same command line as the two arguments on
    either side of the space, so the target cannot tell them apart. *)
Theorem cmdline_not_quoted (before after : list string) (x y : string) :
  build_cmdline (before ++ (x +:+ " " +:+ y) :: after)
  = build_cmdline (before ++ x :: y :: after).
Proof.
  unfold build_cmdline. induction before as [|b before IH]; cbn [app].
  - destruct after as [|z after]; [reflexivity|].
    rewrite !concat_cons. now rewrite !append_assoc.
  - rewrite !concat_cons_nonempty by (now destruct before).
    now rewrite IH.
Qed.
